(** * mini-os-shell: the in-memory directory service of kernel/kernel.c

    A shallow embedding of the shell of [kernel/kernel.c] (tokenizer,
    decimal parser, page rounding, directory table, command dispatcher)
    and the properties of its specification.

    Conventions of the embedding.
    - A C string ([char*] to a NUL-terminated buffer) is modelled by its
      content, the characters before the terminator, as a [string]; a
      pointer that may be NULL is an [option string].
    - [uint32_t] values are integers in [Z]; every operation that can leave
      the range [0, 2^32) is followed by an explicit [wrap32].
    - The directory table [g_dir] is the list of its [MAX_FILES] entries;
      the rest of the machine (allocator and allocated regions) is an
      abstract heap, reached only through [kmalloc] and [memory_set], which
      are declared in libc/mem.h and are parameters here.  Regions handed
      out by [kmalloc] are assumed disjoint from the directory table.
    - The console is the sequence of the arguments of the [kprint] calls. *)

From Stdlib Require Import ZArith Lia Bool String Ascii List.
From stdpp Require Import base list.
Import ListNotations.

Local Open Scope string_scope.
Local Open Scope list_scope.
Local Open Scope Z_scope.

(** ** Characters and C strings *)

Definition code (c : ascii) : Z := Z.of_N (N_of_ascii c).
Definition chr (z : Z) : ascii := ascii_of_N (Z.to_N z).

(** The newline character of the C literals. *)
Definition nl : string := String (chr 10) EmptyString.

(** [uint32_t] wrap-around. *)
Definition wrap32 (z : Z) : Z := z mod 2 ^ 32.

(** Modelled from the spec: [strlen] of libc/string.h is not part of the
    sources; it is the length of the C string. *)
Definition strlen (s : string) : Z := Z.of_nat (String.length s).

(** Modelled from the spec: [strcmp] of libc/string.h is not part of the
    sources; it has the contract of the C library: negative, zero or
    positive as the first string is before, equal to or after the second in
    the order of the character codes. *)
Definition strcmp (s1 s2 : string) : Z :=
  match String.compare s1 s2 with
  | Eq => 0
  | Lt => -1
  | Gt => 1
  end.

Definition is_lower (c : ascii) : bool := (code "a" <=? code c) && (code c <=? code "z").
Definition is_digit (c : ascii) : bool := (code "0" <=? code c) && (code c <=? code "9").

(** [to_upper_inplace]: every character between 'a' and 'z' is replaced by
    [c - 'a' + 'A']. *)
Definition upper_char (c : ascii) : ascii :=
  if is_lower c then chr (code c - code "a" + code "A") else c.

Fixpoint to_upper_inplace (s : string) : string :=
  match s with
  | EmptyString => EmptyString
  | String c r => String (upper_char c) (to_upper_inplace r)
  end.

(** The loop of [next_token] and [parse_uint] that advances over spaces. *)
Fixpoint skip_spaces (s : string) : string :=
  match s with
  | String c r => if code c =? code " " then skip_spaces r else s
  | EmptyString => s
  end.

(** [next_token]: skips spaces; NULL when [p] is NULL or nothing is left. *)
Definition next_token (p : option string) : option string :=
  match p with
  | None => None
  | Some s =>
      match skip_spaces s with
      | EmptyString => None
      | t => Some t
      end
  end.

(** [cut_token p]: scans to the first space; at the end of the string it
    returns NULL, otherwise it overwrites the space with NUL and returns the
    position after it.  The first component is the string left at [p]. *)
Fixpoint cut_token (p : string) : string * option string :=
  match p with
  | EmptyString => (EmptyString, None)
  | String c r =>
      if code c =? code " " then (EmptyString, Some r)
      else let '(t, q) := cut_token r in (String c t, q)
  end.

Fixpoint str_take (n : nat) (s : string) : string :=
  match n, s with
  | S k, String c r => String c (str_take k r)
  | _, _ => EmptyString
  end.

(** [copy_bounded dst src maxlen]: the content of [dst] afterwards. *)
Definition copy_bounded (dst : string) (src : option string) (maxlen : Z) : string :=
  if maxlen <=? 0 then dst
  else match src with
       | None => EmptyString
       | Some s => str_take (Z.to_nat (maxlen - 1)) s
       end.

(** [dec_to_ascii]: the digits are produced from the least significant one
    into [buf], at most 15 of them, and copied out in reverse. *)
Fixpoint dec_digits (fuel : nat) (v : Z) (acc : string) : string :=
  match fuel with
  | O => acc
  | S f => if v =? 0 then acc
           else dec_digits f (v / 10) (String (chr (code "0" + v mod 10)) acc)
  end.

Definition dec_to_ascii (v : Z) : string :=
  if v =? 0 then "0" else dec_digits 15 v EmptyString.

(** [parse_uint]: the digit loop, with [v] and [any] threaded. *)
Fixpoint parse_digits (s : string) (v : Z) (any : bool) : Z * bool :=
  match s with
  | String c r =>
      if is_digit c then parse_digits r (wrap32 (v * 10 + (code c - code "0"))) true
      else (v, any)
  | EmptyString => (v, any)
  end.

Arguments dec_to_ascii : simpl never.

Definition parse_uint (s : string) : Z :=
  let '(v, any) := parse_digits (skip_spaces s) 0 false in
  if any then v else 0.

(** [round_up_page]: [(n + P - 1) & ~(P - 1)] on [uint32_t]. *)
Definition round_up_page (n : Z) : Z :=
  let P := 4096 in
  Z.land (wrap32 (n + P - 1)) (wrap32 (Z.lnot (P - 1))).

(** ** The directory *)

Definition MAX_FILES : Z := 16.
Definition MAX_NAME : Z := 16.
Definition g_dir_count : Z := MAX_FILES.

Record FsEntry : Type := mkFsEntry {
  name : string;
  size : Z;
  alloc_bytes : Z;
  data : Z;
  phys : Z;
  used : Z
}.

(** The test of the search loop of [fs_find]. *)
Definition holds_name (nm : string) (e : FsEntry) : Prop :=
  used e <> 0 /\ strcmp (name e) nm = 0.

Definition is_free (e : FsEntry) : Prop := used e = 0.

(** A slot in use. *)
Definition active (e : FsEntry) : Prop := used e <> 0.

#[local] Instance holds_name_dec nm e : Decision (holds_name nm e).
Proof. unfold holds_name. apply _. Defined.

#[local] Instance is_free_dec e : Decision (is_free e).
Proof. unfold is_free. apply _. Defined.

(** [fs_find]: the first index whose entry is in use under that name, or -1. *)
Definition fs_find (dir : list FsEntry) (nm : string) : Z :=
  match list_find (holds_name nm) dir with
  | Some (i, _) => Z.of_nat i
  | None => -1
  end.

(** The slot search of [cmd_create]: the first free index, or -1. *)
Definition find_slot (dir : list FsEntry) : Z :=
  match list_find is_free dir with
  | Some (i, _) => Z.of_nat i
  | None => -1
  end.

(** ** The environment of the shell

    [kmalloc] and [memory_set] (libc/mem.h) and [hex_to_ascii]
    (libc/string.h) are declared outside the sources.  [kmalloc size align h]
    gives the returned address, the physical address stored through the third
    argument, and the heap afterwards; [memory_set dest val len h] is the heap
    after the region has been filled; [hex_to_ascii n] is the text left in
    the buffer. *)
Class Platform : Type := mkPlatform {
  Heap : Type;
  kmalloc : Z -> Z -> Heap -> Z * Z * Heap;
  memory_set : Z -> Z -> Z -> Heap -> Heap;
  hex_to_ascii : Z -> string
}.

Section Kernel.
Context {PF : Platform}.

(** The globals [g_dir] (the table behind the pointer) and [g_dir_phys], the
    heap, the console and whether the CPU has executed [hlt]. *)
Record kstate : Type := mkKstate {
  g_dir : list FsEntry;
  g_dir_phys : Z;
  heap : Heap;
  screen : list string;
  halted : bool
}.

(** A piece of code acting on the state of the machine. *)
Definition action : Type := kstate -> kstate.

Definition seq (c1 c2 : action) : action := fun st => c2 (c1 st).

Definition kprint (msg : string) : action := fun st =>
  mkKstate (g_dir st) (g_dir_phys st) (heap st) (screen st ++ [msg]) (halted st).

Definition set_heap (h : Heap) : action := fun st =>
  mkKstate (g_dir st) (g_dir_phys st) h (screen st) (halted st).

Definition set_dir (d : list FsEntry) : action := fun st =>
  mkKstate d (g_dir_phys st) (heap st) (screen st) (halted st).

Definition set_dir_phys (p : Z) : action := fun st =>
  mkKstate (g_dir st) p (heap st) (screen st) (halted st).

(** [asm volatile("hlt")] *)
Definition hlt : action := fun st =>
  mkKstate (g_dir st) (g_dir_phys st) (heap st) (screen st) true.

End Kernel.

Notation "c1 ;> c2" := (seq c1 c2) (at level 61, left associativity).

Arguments kprint : simpl never.
Arguments set_heap : simpl never.
Arguments set_dir : simpl never.
Arguments set_dir_phys : simpl never.
Arguments hlt : simpl never.
Arguments seq : simpl never.

Section Commands.
Context {PF : Platform}.

(** The assignments of [cmd_del] to one entry. *)
Definition clear_entry (e : FsEntry) : FsEntry :=
  mkFsEntry EmptyString 0 0 0 0 0.

(** [sizeof(FsEntry)] on the 32-bit target: 16 + 4 * 4 + 1 bytes, padded
    to a multiple of 4. *)
Definition sizeof_FsEntry : Z := 36.

(** [g_dir[i].used = 0] *)
Definition mark_free (e : FsEntry) : FsEntry :=
  mkFsEntry (name e) (size e) (alloc_bytes e) (data e) (phys e) 0.

(** [fs_init]: [raw] is the content of the memory that [kmalloc] returns for
    the table; only the [used] flags are initialised. *)
Definition fs_init (raw : list FsEntry) : action := fun st =>
  let '(addr, ph, h) := kmalloc (sizeof_FsEntry * MAX_FILES) 1 (heap st) in
  (set_heap h ;> set_dir_phys ph ;> set_dir (map mark_free raw) ;>
   kprint "FS init. dir@" ;> kprint (hex_to_ascii addr) ;>
   kprint " phys@" ;> kprint (hex_to_ascii ph) ;> kprint nl) st.

(** One iteration of the loop of [cmd_list]. *)
Definition list_entry (e : FsEntry) : action :=
  if used e =? 0 then (fun st => st)
  else kprint "  " ;> kprint (name e) ;>
       kprint "  size=" ;> kprint (dec_to_ascii (size e)) ;>
       kprint "B alloc=" ;> kprint (dec_to_ascii (alloc_bytes e)) ;>
       kprint "B v@" ;> kprint (hex_to_ascii (data e)) ;>
       kprint " p@" ;> kprint (hex_to_ascii (phys e)) ;>
       kprint nl.

Definition cmd_list : action := fun st =>
  fold_left (fun s e => list_entry e s) (g_dir st) (kprint ("FILES:" ++ nl) st).

Definition is_empty (s : string) : bool :=
  match s with EmptyString => true | _ => false end.

(** [!p || !*p] *)
Definition missing (p : option string) : bool :=
  match p with
  | None => true
  | Some s => is_empty s
  end.

Definition arg (p : option string) : string :=
  match p with Some s => s | None => EmptyString end.

(** The assignments of [cmd_create] to the entry of the chosen slot. *)
Definition create_entry (nm : option string) (req alloc data phys : Z) (e : FsEntry) : FsEntry :=
  mkFsEntry (copy_bounded (name e) nm MAX_NAME) req alloc data phys 1.

(** [CREATE <name> <size>] *)
Definition cmd_create (nm size_str : option string) : action := fun st =>
  if missing nm || missing size_str then kprint ("usage: CREATE <name> <size>" ++ nl) st
  else if strlen (arg nm) >=? MAX_NAME then kprint ("ERR: name too long" ++ nl) st
  else if fs_find (g_dir st) (arg nm) >=? 0 then kprint ("ERR: exists" ++ nl) st
  else
    let req := parse_uint (arg size_str) in
    if req =? 0 then kprint ("ERR: size must be > 0" ++ nl) st
    else
      let slot := find_slot (g_dir st) in
      if slot <? 0 then kprint ("ERR: directory full" ++ nl) st
      else
        let alloc := round_up_page req in
        let '(data, phys, h) := kmalloc alloc 1 (heap st) in
        if data =? 0 then (set_heap h ;> kprint ("ERR: kmalloc failed" ++ nl)) st
        else
          (set_heap (memory_set data 0 alloc h) ;>
           set_dir (alter (create_entry nm req alloc data phys) (Z.to_nat slot) (g_dir st)) ;>
           kprint ("OK" ++ nl)) st.

(** The assignment of [cmd_rename] to one entry. *)
Definition rename_entry (newn : option string) (e : FsEntry) : FsEntry :=
  mkFsEntry (copy_bounded (name e) newn MAX_NAME)
            (size e) (alloc_bytes e) (data e) (phys e) (used e).

(** [RENAME <old> <new>] *)
Definition cmd_rename (oldn newn : option string) : action := fun st =>
  if missing oldn || missing newn then kprint ("usage: RENAME <old> <new>" ++ nl) st
  else if strlen (arg newn) >=? MAX_NAME then kprint ("ERR: name too long" ++ nl) st
  else
    let idx := fs_find (g_dir st) (arg oldn) in
    if idx <? 0 then kprint ("ERR: not found" ++ nl) st
    else if fs_find (g_dir st) (arg newn) >=? 0 then kprint ("ERR: exists" ++ nl) st
    else (set_dir (alter (rename_entry newn) (Z.to_nat idx) (g_dir st)) ;>
          kprint ("OK" ++ nl)) st.

(** [DEL <name>] *)
Definition cmd_del (nm : option string) : action := fun st =>
  if missing nm then kprint ("usage: DEL <name>" ++ nl) st
  else
    let idx := fs_find (g_dir st) (arg nm) in
    if idx <? 0 then kprint ("ERR: not found" ++ nl) st
    else (set_dir (alter clear_entry (Z.to_nat idx) (g_dir st)) ;>
          kprint ("OK" ++ nl)) st.

(** The [PAGE] branch of [user_input]. *)
Definition cmd_page : action := fun st =>
  let '(page, phys_addr, h) := kmalloc 1000 1 (heap st) in
  (set_heap h ;>
   kprint "Page: " ;> kprint (hex_to_ascii page) ;>
   kprint ", physical address: " ;> kprint (hex_to_ascii phys_addr) ;>
   kprint (nl ++ "> ")) st.

(** The keyword dispatch at the end of [user_input]. *)
Definition dispatch (cmd : string) (arg1 arg2 : option string) : action :=
  if strcmp cmd "LIST" =? 0 then cmd_list
  else if strcmp cmd "CREATE" =? 0 then cmd_create arg1 arg2
  else if strcmp cmd "RENAME" =? 0 then cmd_rename arg1 arg2
  else if strcmp cmd "DEL" =? 0 then cmd_del arg1
  else kprint ("Unknown command" ++ nl).

(** The three pointers [cmd], [arg1] and [arg2] of [user_input], with the
    strings they point to once the cuts have been made; [None] when [cmd]
    is NULL. *)
Definition tokens (input : string) : option (string * option string * option string) :=
  match next_token (Some input) with
  | None => None
  | Some c =>
      let '(cmd, p) := cut_token c in
      let arg1 := next_token p in
      let '(a1, p) := match arg1 with
                      | Some a => let '(t, q) := cut_token a in (Some t, q)
                      | None => (None, p)
                      end in
      let arg2 := next_token p in
      Some (cmd, a1, arg2)
  end.

Definition user_input (input : string) : action := fun st =>
  let input := to_upper_inplace input in
  if strcmp input "END" =? 0 then (kprint ("Stopping the CPU. Bye!" ++ nl) ;> hlt) st
  else if strcmp input "PAGE" =? 0 then cmd_page st
  else
    match tokens input with
    | None => kprint "> " st
    | Some (cmd, arg1, arg2) => (dispatch cmd arg1 arg2 ;> kprint "> ") st
    end.

(** [kernel_main] from [fs_init] on; the interrupt set-up before it touches
    nothing of the shell but the console. *)
Definition kernel_main (raw : list FsEntry) : action :=
  fs_init raw ;>
  kprint ("Mini-OS ready." ++ nl) ;>
  kprint ("Commands: LIST | CREATE <name> <size> | RENAME <old> <new> | DEL <name> | PAGE | END"
          ++ nl ++ nl) ;>
  cmd_list ;>
  kprint (nl ++ "> ").

End Commands.

(** ** The machine around [user_input] *)

Section Machine.
Context {PF : Platform}.

(** Modelled from the spec: the keyboard driver that hands each line to
    [user_input] is not part of the sources.  After [hlt] the processor
    stops accepting further input, so a line that arrives in a halted state
    is not processed. *)
Definition step (line : string) : action := fun st =>
  if halted st then st else user_input line st.

Definition run (lines : list string) : action := fun st =>
  fold_left (fun s l => step l s) lines st.

(** The state in which [fs_init] starts: the table pointer still NULL, the
    CPU running, and on the console whatever the interrupt set-up and the
    two test interrupts of [kernel_main] have printed. *)
Definition power_on (h : Heap) (scr : list string) : kstate := mkKstate [] 0 h scr false.

(** The states of the shell: the state after [kernel_main], for any content
    [raw] of the memory of the table, and the states after any further
    input line. *)
Inductive reachable : kstate -> Prop :=
| reach_boot (raw : list FsEntry) (h : Heap) (scr : list string) :
    Z.of_nat (length raw) = MAX_FILES -> reachable (kernel_main raw (power_on h scr))
| reach_input (line : string) (st : kstate) :
    reachable st -> reachable (user_input line st).

(** A command changes the directory only when it answers OK. *)
Definition ok_or_same (c : action) (st : kstate) : Prop :=
  g_dir (c st) = g_dir st \/ screen (c st) = screen st ++ [("OK" ++ nl)%string].

(** The state after a successful [cmd_create] that filled slot [i]. *)
Definition created (i : nat) (nm : string) (req d p : Z) (h : Heap) : action := fun st =>
  (set_heap (memory_set d 0 (round_up_page req) h) ;>
   set_dir (<[i := mkFsEntry nm req (round_up_page req) d p 1]> (g_dir st)) ;>
   kprint ("OK" ++ nl)) st.

(** [lowest_free dir i]: slot [i] is free and every slot before it is in use. *)
Definition lowest_free (dir : list FsEntry) (i : nat) : Prop :=
  (exists e, dir !! i = Some e /\ used e = 0) /\
  forall (j : nat) (e' : FsEntry), (j < i)%nat -> dir !! j = Some e' -> active e'.

#[local] Instance active_dec e : Decision (active e).
Proof. unfold active. apply _. Defined.

(** The number of slots in use. *)
Definition active_count (dir : list FsEntry) : nat := length (filter active dir).

End Machine.

(** ** Notions of the specification *)

(** No two slots in use carry the same name. *)
Definition unique_names (dir : list FsEntry) : Prop :=
  forall (i j : nat) (e1 e2 : FsEntry),
    dir !! i = Some e1 -> dir !! j = Some e2 ->
    active e1 -> active e2 -> name e1 = name e2 -> i = j.

(** A string without a character between 'a' and 'z'. *)
Fixpoint is_upper (s : string) : bool :=
  match s with
  | EmptyString => true
  | String c r => negb (is_lower c) && is_upper r
  end.

(** [smallest_page_multiple n m]: [m] is the smallest multiple of 4096 that
    is at least [n]. *)
Definition page_multiple (m : Z) : Prop := exists k : Z, m = 4096 * k.

Definition smallest_page_multiple (n m : Z) : Prop :=
  page_multiple m /\ n <= m /\ forall m' : Z, page_multiple m' -> n <= m' -> m <= m'.

(** The lines of a text. *)
Fixpoint lines_from (cur : string) (s : string) : list string :=
  match s with
  | EmptyString => [cur]
  | String c r =>
      if code c =? 10 then cur :: lines_from EmptyString r
      else lines_from (cur ++ String c EmptyString) r
  end.

Definition screen_text (chunks : list string) : string := String.concat EmptyString chunks.

(** A response reports a domain error when one of its lines is a usage
    message or begins with ERR: *)
Definition is_error_line (l : string) : bool :=
  String.prefix "usage:" l || String.prefix "ERR:" l.

Definition reports_error (resp : list string) : bool :=
  existsb is_error_line (lines_from EmptyString (screen_text resp)).

(** The size text begins, after spaces, with a decimal digit. *)
Definition leading_digit (s : string) : bool :=
  match skip_spaces s with
  | String c _ => is_digit c
  | EmptyString => false
  end.

(** A string with a space in it. *)
Fixpoint has_space (s : string) : bool :=
  match s with
  | EmptyString => false
  | String c r => (code c =? code " ") || has_space r
  end.

(** [contains kw s]: the text [kw] occurs in [s]. *)
Definition contains (kw s : string) : Prop :=
  exists pre post : string, s = (pre ++ kw ++ post)%string.

(** The command keyword of a line, as [user_input] finds it. *)
Definition keyword (line : string) : option string :=
  match tokens (to_upper_inplace line) with
  | Some (c, _, _) => Some c
  | None => None
  end.

(** Every name in use is uppercase. *)
Definition names_upper (dir : list FsEntry) : Prop :=
  forall (i : nat) (e : FsEntry), dir !! i = Some e -> active e -> is_upper (name e) = true.

(** Every record in use has a size in [1, 2^32) and the page rounding of
    that size as its allocation. *)
Definition alloc_rounded (dir : list FsEntry) : Prop :=
  forall (i : nat) (e : FsEntry), dir !! i = Some e -> active e ->
    0 < size e < 2 ^ 32 /\ alloc_bytes e = round_up_page (size e).

(** What one input line can do to the directory table: nothing, or the
    assignments of [cmd_create] to the first free slot, of [cmd_rename] or
    of [cmd_del] to the slot that [fs_find] returns. *)
Inductive dir_step (dir : list FsEntry) : list FsEntry -> Prop :=
| dir_same : dir_step dir dir
| dir_created (i : nat) (e : FsEntry) (nm sz : string) (d p : Z) :
    list_find is_free dir = Some (i, e) ->
    is_upper nm = true -> strlen nm < MAX_NAME -> fs_find dir nm < 0 ->
    parse_uint sz <> 0 ->
    dir_step dir
      (<[i := mkFsEntry nm (parse_uint sz) (round_up_page (parse_uint sz)) d p 1]> dir)
| dir_renamed (i : nat) (e : FsEntry) (old nm : string) :
    list_find (holds_name old) dir = Some (i, e) ->
    is_upper nm = true -> strlen nm < MAX_NAME -> fs_find dir nm < 0 ->
    dir_step dir
      (<[i := mkFsEntry nm (size e) (alloc_bytes e) (data e) (phys e) (used e)]> dir)
| dir_deleted (i : nat) (e : FsEntry) (nm : string) :
    list_find (holds_name nm) dir = Some (i, e) ->
    dir_step dir (<[i := mkFsEntry EmptyString 0 0 0 0 0]> dir).

(** ** A concrete platform for the examples

    A bump allocator in the style of the tutorial kernels: the heap is the
    next free address, a request with [align = 1] is moved to the next page
    boundary unless the address is in the first page, and never fails. *)
Definition sample_kmalloc (sz align : Z) (free_mem_addr : Z) : Z * Z * Z :=
  let a := if (align =? 1) && negb (Z.land free_mem_addr 4294963200 =? 0)
           then wrap32 (Z.land free_mem_addr 4294963200 + 4096)
           else free_mem_addr in
  (a, a, wrap32 (a + sz)).

Definition hex_digit (d : Z) : ascii :=
  if d <? 10 then chr (code "0" + d) else chr (code "a" + (d - 10)).

Fixpoint hex_digits (fuel : nat) (v : Z) (acc : string) : string :=
  match fuel with
  | O => acc
  | S f => hex_digits f (v / 16) (String (hex_digit (v mod 16)) acc)
  end.

Definition sample_hex (v : Z) : string := "0x" ++ hex_digits 8 v EmptyString.

Definition sample : Platform :=
  mkPlatform Z sample_kmalloc (fun _ _ _ h => h) sample_hex.

Definition junk : FsEntry := mkFsEntry "junk" 7 7 7 7 7.

(** The sample machine after boot: sixteen free slots. *)
Definition booted : @kstate sample :=
  @kernel_main sample (replicate 16 junk) (@power_on sample 65536 []).

(** The sample machine after the given lines. *)
Definition after (lines : list string) : @kstate sample :=
  fold_left (fun s l => @user_input sample l s) lines booted.

(** Sixteen CREATE lines with distinct names. *)
Definition sixteen : list string :=
  ["CREATE F0 10"; "CREATE F1 10"; "CREATE F2 10"; "CREATE F3 10";
   "CREATE F4 10"; "CREATE F5 10"; "CREATE F6 10"; "CREATE F7 10";
   "CREATE F8 10"; "CREATE F9 10"; "CREATE F10 10"; "CREATE F11 10";
   "CREATE F12 10"; "CREATE F13 10"; "CREATE F14 10"; "CREATE F15 10"]%string.

(** The sample machine with every slot in use, and after one DEL. *)
Definition full : @kstate sample := after sixteen.
Definition freed : @kstate sample := after (sixteen ++ ["DEL F3"%string]).

(** What the sample machine prints for [line] after [lines]. *)
Definition reply (lines : list string) (line : string) : list string :=
  drop (length (screen (after lines))) (screen (after (lines ++ [line]))).

(** ** Notions for the further properties *)

(** [spaces n]: a run of [n] spaces. *)
Fixpoint spaces (n : nat) : string :=
  match n with
  | O => EmptyString
  | S k => String " " (spaces k)
  end.

(** A text that does not begin with a space (the empty text included). *)
Definition no_leading_space (s : string) : bool :=
  match s with
  | String c _ => negb (code c =? code " ")
  | EmptyString => true
  end.

Fixpoint all_digits (s : string) : bool :=
  match s with
  | EmptyString => true
  | String c r => is_digit c && all_digits r
  end.

(** The number that a digit string denotes after the digits already read
    gave [acc], without any bound on the value. *)
Fixpoint dec_value (acc : Z) (s : string) : Z :=
  match s with
  | EmptyString => acc
  | String c r => dec_value (acc * 10 + (code c - code "0")) r
  end.

(** A text that is empty or begins with something that is not a digit. *)
Definition leading_digit_free (s : string) : Prop :=
  match s with
  | String c _ => is_digit c = false
  | EmptyString => True
  end.

(** [s] begins with [p]. *)
Definition begins_with (p s : string) : Prop :=
  exists rest : string, s = (p ++ rest)%string.

Section Listing.
Context {PF : Platform}.

(** What [cmd_list] prints for one record in use. *)
Definition entry_chunks (e : FsEntry) : list string :=
  ["  "; name e; "  size="; dec_to_ascii (size e); "B alloc=";
   dec_to_ascii (alloc_bytes e); "B v@"; hex_to_ascii (data e);
   " p@"; hex_to_ascii (phys e); nl]%string.

Fixpoint entries_chunks (dir : list FsEntry) : list string :=
  match dir with
  | [] => []
  | e :: rest => (if used e =? 0 then [] else entry_chunks e) ++ entries_chunks rest
  end.

(** The header and then the records in use, in slot order. *)
Definition listing (dir : list FsEntry) : list string :=
  ("FILES:" ++ nl)%string :: entries_chunks dir.

(** A record as [cmd_create] and [cmd_rename] leave it. *)
Definition wellformed_record (e : FsEntry) : Prop :=
  used e = 1 /\ name e <> EmptyString /\ strlen (name e) < MAX_NAME /\
  0 < size e < 2 ^ 32 /\ alloc_bytes e = round_up_page (size e) /\ data e <> 0.

(** The number of slots in use, counted slot by slot. *)
Fixpoint in_use (dir : list FsEntry) : Z :=
  match dir with
  | [] => 0
  | e :: rest => (if used e =? 0 then 0 else 1) + in_use rest
  end.

(** A slot is free or holds a well-formed record. *)
Definition slot_ok (e : FsEntry) : Prop := used e = 0 \/ wellformed_record e.

(** The state after [resp] has been printed and nothing else has happened. *)
Definition prints (resp : list string) : action := fun st =>
  mkKstate (g_dir st) (g_dir_phys st) (heap st) (screen st ++ resp) (halted st).

(** The last chunk of a response ends with the prompt. *)
Definition ends_with_prompt (resp : list string) : Prop :=
  exists (front : list string) (last : string),
    resp = front ++ [last] /\ (last = "> "%string \/ last = (nl ++ "> ")%string).

End Listing.

Arguments prints : simpl never.

(** ** Strings and tokens *)

Lemma strcmp_refl (s : string) : strcmp s s = 0.
Proof.
  unfold strcmp.
  assert (H : String.compare s s = Eq).
  { induction s as [|c r IH]; simpl; [reflexivity|].
    rewrite IH.
    assert (Hc : Ascii.compare c c = Eq).
    { unfold Ascii.compare. apply N.compare_refl. }
    rewrite Hc. reflexivity. }
  rewrite H. reflexivity.
Qed.

Lemma strcmp_eq (s1 s2 : string) : strcmp s1 s2 = 0 <-> s1 = s2.
Proof.
  split.
  - unfold strcmp. destruct (String.compare s1 s2) eqn:E; try discriminate.
    intros _. apply String.compare_eq_iff. exact E.
  - intros ->. apply strcmp_refl.
Qed.

Lemma strcmp_eqb (s1 s2 : string) : (strcmp s1 s2 =? 0) = true <-> s1 = s2.
Proof. rewrite Z.eqb_eq. apply strcmp_eq. Qed.

Lemma strcmp_neqb (s1 s2 : string) : s1 <> s2 -> (strcmp s1 s2 =? 0) = false.
Proof.
  intros Hne. apply Z.eqb_neq. intros H. apply Hne. apply strcmp_eq. exact H.
Qed.

Lemma upper_char_not_lower (c : ascii) : is_lower (upper_char c) = false.
Proof.
  destruct c as [[] [] [] [] [] [] [] []]; reflexivity.
Qed.

Lemma upper_char_fixed (c : ascii) : is_lower c = false -> upper_char c = c.
Proof. unfold upper_char. intros ->. reflexivity. Qed.

Lemma upper_char_idem (c : ascii) : upper_char (upper_char c) = upper_char c.
Proof. apply upper_char_fixed. apply upper_char_not_lower. Qed.

Lemma to_upper_inplace_idem (s : string) :
  to_upper_inplace (to_upper_inplace s) = to_upper_inplace s.
Proof.
  induction s as [|c r IH]; simpl; [reflexivity|].
  rewrite upper_char_idem, IH. reflexivity.
Qed.

Lemma to_upper_is_upper (s : string) : is_upper (to_upper_inplace s) = true.
Proof.
  induction s as [|c r IH]; simpl; [reflexivity|].
  rewrite upper_char_not_lower, IH. reflexivity.
Qed.

Lemma is_upper_fixed (s : string) : is_upper s = true -> to_upper_inplace s = s.
Proof.
  induction s as [|c r IH]; simpl; [reflexivity|].
  intros H. apply andb_true_iff in H as [Hc Hr].
  rewrite upper_char_fixed, IH; auto.
  destruct (is_lower c); [discriminate | reflexivity].
Qed.

Lemma skip_spaces_upper (s : string) : is_upper s = true -> is_upper (skip_spaces s) = true.
Proof.
  induction s as [|c r IH]; simpl; [reflexivity|].
  intros H. destruct (code c =? code " "); [|exact H].
  apply andb_true_iff in H as [_ Hr]. auto.
Qed.

Lemma next_token_upper (p : string) (t : string) :
  is_upper p = true -> next_token (Some p) = Some t -> is_upper t = true.
Proof.
  intros Hp. unfold next_token.
  pose proof (skip_spaces_upper p Hp) as Hs.
  destruct (skip_spaces p); [discriminate|].
  intros [= <-]. exact Hs.
Qed.

Lemma cut_token_upper (p : string) :
  is_upper p = true ->
  is_upper (fst (cut_token p)) = true /\
  forall q, snd (cut_token p) = Some q -> is_upper q = true.
Proof.
  induction p as [|c r IH]; simpl.
  - intros _. split; [reflexivity | discriminate].
  - intros H. apply andb_true_iff in H as [Hc Hr].
    destruct (code c =? code " ").
    + simpl. split; [reflexivity|]. intros q [= <-]. exact Hr.
    + destruct (cut_token r) as [t q'] eqn:E. simpl in *.
      destruct (IH Hr) as [Ht Hq]. rewrite Hc, Ht. split; [reflexivity | exact Hq].
Qed.

Lemma str_take_upper (n : nat) (s : string) :
  is_upper s = true -> is_upper (str_take n s) = true.
Proof.
  revert s. induction n as [|k IH]; intros [|c r]; simpl; try reflexivity.
  intros H. apply andb_true_iff in H as [Hc Hr]. rewrite Hc, IH; auto.
Qed.

Lemma str_take_all (n : nat) (s : string) :
  (String.length s <= n)%nat -> str_take n s = s.
Proof.
  revert s. induction n as [|k IH]; intros [|c r]; simpl; try reflexivity.
  - lia.
  - intros H. rewrite IH; [reflexivity | lia].
Qed.

(** A name that passes the length check is stored whole. *)
Lemma copy_bounded_short (dst s : string) :
  strlen s < MAX_NAME -> copy_bounded dst (Some s) MAX_NAME = s.
Proof.
  unfold strlen, MAX_NAME, copy_bounded. intros H.
  change (16 <=? 0) with false. cbv iota.
  apply str_take_all. lia.
Qed.


Lemma cut_token_no_space (p : string) : has_space (fst (cut_token p)) = false.
Proof.
  induction p as [|c r IH]; simpl; [reflexivity|].
  destruct (code c =? code " ") eqn:E; [reflexivity|].
  destruct (cut_token r) as [t q]. simpl in *. rewrite E, IH. reflexivity.
Qed.

Lemma next_token_nonempty (p : option string) (t : string) :
  next_token p = Some t -> is_empty t = false.
Proof.
  unfold next_token. destruct p as [s|]; [|discriminate].
  destruct (skip_spaces s); [discriminate|]. intros [= <-]. reflexivity.
Qed.

(** ** The commands, case by case *)

Section Properties.
Context {PF : Platform}.

Ltac split_ifs := repeat case_match.

(** *** The fields of the state after each primitive *)

Lemma seq_apply (c1 c2 : action) (st : kstate) : (c1 ;> c2) st = c2 (c1 st).
Proof. reflexivity. Qed.

Lemma g_dir_kprint m (st : kstate) : g_dir (kprint m st) = g_dir st.
Proof. reflexivity. Qed.
Lemma g_dir_phys_kprint m (st : kstate) : g_dir_phys (kprint m st) = g_dir_phys st.
Proof. reflexivity. Qed.
Lemma heap_kprint m (st : kstate) : heap (kprint m st) = heap st.
Proof. reflexivity. Qed.
Lemma halted_kprint m (st : kstate) : halted (kprint m st) = halted st.
Proof. reflexivity. Qed.
Lemma screen_kprint m (st : kstate) : screen (kprint m st) = screen st ++ [m].
Proof. reflexivity. Qed.

Lemma g_dir_set_heap h (st : kstate) : g_dir (set_heap h st) = g_dir st.
Proof. reflexivity. Qed.
Lemma g_dir_phys_set_heap h (st : kstate) : g_dir_phys (set_heap h st) = g_dir_phys st.
Proof. reflexivity. Qed.
Lemma heap_set_heap h (st : kstate) : heap (set_heap h st) = h.
Proof. reflexivity. Qed.
Lemma halted_set_heap h (st : kstate) : halted (set_heap h st) = halted st.
Proof. reflexivity. Qed.
Lemma screen_set_heap h (st : kstate) : screen (set_heap h st) = screen st.
Proof. reflexivity. Qed.

Lemma g_dir_set_dir d (st : kstate) : g_dir (set_dir d st) = d.
Proof. reflexivity. Qed.
Lemma g_dir_phys_set_dir d (st : kstate) : g_dir_phys (set_dir d st) = g_dir_phys st.
Proof. reflexivity. Qed.
Lemma heap_set_dir d (st : kstate) : heap (set_dir d st) = heap st.
Proof. reflexivity. Qed.
Lemma halted_set_dir d (st : kstate) : halted (set_dir d st) = halted st.
Proof. reflexivity. Qed.
Lemma screen_set_dir d (st : kstate) : screen (set_dir d st) = screen st.
Proof. reflexivity. Qed.

Lemma g_dir_set_dir_phys p (st : kstate) : g_dir (set_dir_phys p st) = g_dir st.
Proof. reflexivity. Qed.
Lemma heap_set_dir_phys p (st : kstate) : heap (set_dir_phys p st) = heap st.
Proof. reflexivity. Qed.
Lemma halted_set_dir_phys p (st : kstate) : halted (set_dir_phys p st) = halted st.
Proof. reflexivity. Qed.
Lemma screen_set_dir_phys p (st : kstate) : screen (set_dir_phys p st) = screen st.
Proof. reflexivity. Qed.

Lemma g_dir_hlt (st : kstate) : g_dir (hlt st) = g_dir st.
Proof. reflexivity. Qed.
Lemma heap_hlt (st : kstate) : heap (hlt st) = heap st.
Proof. reflexivity. Qed.
Lemma halted_hlt (st : kstate) : halted (hlt st) = true.
Proof. reflexivity. Qed.
Lemma screen_hlt (st : kstate) : screen (hlt st) = screen st.
Proof. reflexivity. Qed.

Create Rewrite HintDb kstate.

#[local] Hint Rewrite seq_apply
  g_dir_kprint g_dir_phys_kprint heap_kprint halted_kprint screen_kprint
  g_dir_set_heap g_dir_phys_set_heap heap_set_heap halted_set_heap screen_set_heap
  g_dir_set_dir g_dir_phys_set_dir heap_set_dir halted_set_dir screen_set_dir
  g_dir_set_dir_phys heap_set_dir_phys halted_set_dir_phys screen_set_dir_phys
  g_dir_hlt heap_hlt halted_hlt screen_hlt : kstate.

Ltac fields := autorewrite with kstate.

(** [list_entry] only prints. *)
Lemma list_entry_frame (e : FsEntry) (st : kstate) :
  g_dir (list_entry e st) = g_dir st /\ g_dir_phys (list_entry e st) = g_dir_phys st /\
  heap (list_entry e st) = heap st /\ halted (list_entry e st) = halted st /\
  exists resp, screen (list_entry e st) = screen st ++ resp.
Proof.
  unfold list_entry. destruct (used e =? 0).
  - repeat split; try reflexivity. exists []. rewrite app_nil_r. reflexivity.
  - fields. repeat split.
    exists ["  "; name e; "  size="; dec_to_ascii (size e); "B alloc=";
            dec_to_ascii (alloc_bytes e); "B v@"; hex_to_ascii (data e);
            " p@"; hex_to_ascii (phys e); nl]%string.
    rewrite <- !app_assoc. reflexivity.
Qed.

Lemma fold_list_entry_frame (dir : list FsEntry) (st : kstate) :
  g_dir (fold_left (fun s e => list_entry e s) dir st) = g_dir st /\
  g_dir_phys (fold_left (fun s e => list_entry e s) dir st) = g_dir_phys st /\
  heap (fold_left (fun s e => list_entry e s) dir st) = heap st /\
  halted (fold_left (fun s e => list_entry e s) dir st) = halted st /\
  exists resp, screen (fold_left (fun s e => list_entry e s) dir st) = screen st ++ resp.
Proof.
  revert st. induction dir as [|e dir IH]; intros st; cbn [fold_left].
  - repeat split; try reflexivity. exists []. rewrite app_nil_r. reflexivity.
  - destruct (IH (list_entry e st)) as (Hd & Hp & Hh & Hl & resp & Hs).
    destruct (list_entry_frame e st) as (Hd' & Hp' & Hh' & Hl' & r & Hs').
    repeat split; try congruence.
    exists (r ++ resp). rewrite Hs, Hs', app_assoc. reflexivity.
Qed.

(** [LIST] only prints, and what it prints starts with the header. *)
Lemma cmd_list_frame (st : kstate) :
  g_dir (cmd_list st) = g_dir st /\ g_dir_phys (cmd_list st) = g_dir_phys st /\
  heap (cmd_list st) = heap st /\ halted (cmd_list st) = halted st /\
  exists resp, screen (cmd_list st) = screen st ++ ("FILES:" ++ nl)%string :: resp.
Proof.
  unfold cmd_list.
  destruct (fold_list_entry_frame (g_dir st) (kprint ("FILES:" ++ nl) st))
    as (Hd & Hp & Hh & Hl & resp & Hs).
  revert Hd Hp Hh Hl Hs. fields. intros Hd Hp Hh Hl Hs.
  repeat split; try assumption.
  exists resp. rewrite Hs, <- app_assoc. reflexivity.
Qed.

Lemma cmd_create_ok_or_same nm sz st : ok_or_same (cmd_create nm sz) st.
Proof.
  unfold ok_or_same, cmd_create. split_ifs; try (left; reflexivity).
  right. reflexivity.
Qed.

Lemma cmd_rename_ok_or_same a b st : ok_or_same (cmd_rename a b) st.
Proof.
  unfold ok_or_same, cmd_rename. split_ifs; try (left; reflexivity).
  right. reflexivity.
Qed.

Lemma cmd_del_ok_or_same a st : ok_or_same (cmd_del a) st.
Proof.
  unfold ok_or_same, cmd_del. split_ifs; try (left; reflexivity).
  right. reflexivity.
Qed.

Lemma dispatch_ok_or_same c a1 a2 st : ok_or_same (dispatch c a1 a2) st.
Proof.
  unfold dispatch. split_ifs.
  - left. apply cmd_list_frame.
  - apply cmd_create_ok_or_same.
  - apply cmd_rename_ok_or_same.
  - apply cmd_del_ok_or_same.
  - left. reflexivity.
Qed.

(** The four ways through [user_input]. *)
Lemma user_input_cases (line : string) (st : kstate) :
  user_input line st = hlt (kprint ("Stopping the CPU. Bye!" ++ nl) st) /\
    to_upper_inplace line = "END"%string
  \/ user_input line st = cmd_page st /\ to_upper_inplace line = "PAGE"%string
  \/ user_input line st = kprint "> " st /\ tokens (to_upper_inplace line) = None
  \/ exists c a1 a2,
       tokens (to_upper_inplace line) = Some (c, a1, a2) /\
       to_upper_inplace line <> "END"%string /\
       to_upper_inplace line <> "PAGE"%string /\
       user_input line st = kprint "> " (dispatch c a1 a2 st).
Proof.
  unfold user_input.
  destruct (strcmp (to_upper_inplace line) "END" =? 0) eqn:E1.
  { left. split; [reflexivity|]. apply strcmp_eqb. exact E1. }
  destruct (strcmp (to_upper_inplace line) "PAGE" =? 0) eqn:E2.
  { right. left. split; [reflexivity|]. apply strcmp_eqb. exact E2. }
  destruct (tokens (to_upper_inplace line)) as [[[c a1] a2]|] eqn:E3.
  - right. right. right. exists c, a1, a2. repeat split.
    + intros H. rewrite H in E1. discriminate.
    + intros H. rewrite H in E2. discriminate.
  - right. right. left. split; reflexivity.
Qed.

Lemma cmd_page_dir (st : kstate) : g_dir (cmd_page st) = g_dir st.
Proof. unfold cmd_page. split_ifs. reflexivity. Qed.

Lemma user_input_ok_or_same (line : string) (st : kstate) :
  g_dir (user_input line st) = g_dir st \/
  screen (user_input line st) = screen st ++ [("OK" ++ nl)%string; "> "%string].
Proof.
  destruct (user_input_cases line st)
    as [[-> _] | [[-> _] | [[-> _] | (c & a1 & a2 & _ & _ & _ & ->)]]].
  - left. reflexivity.
  - left. apply cmd_page_dir.
  - left. reflexivity.
  - destruct (dispatch_ok_or_same c a1 a2 st) as [H | H].
    + left. exact H.
    + right. simpl. rewrite H. rewrite <- app_assoc. reflexivity.
Qed.

(** C2: for every state and every line, when the response to the line
    reports a domain error (one of its lines is a usage message or begins
    with ERR:), the directory table after the line is the table before it,
    entry by entry and field by field. *)
Theorem error_leaves_directory_unchanged (st : kstate) (line : string) (resp : list string) :
  screen (user_input line st) = screen st ++ resp ->
  reports_error resp = true ->
  g_dir (user_input line st) = g_dir st.
Proof.
  intros Hs He.
  destruct (user_input_ok_or_same line st) as [H | H]; [exact H|].
  rewrite H in Hs. apply app_inv_head in Hs. subst resp.
  vm_compute in He. discriminate.
Qed.

(** ** The transitions of the directory table *)

Lemma alter_as_insert (f : FsEntry -> FsEntry) (i : nat) (e : FsEntry) (l : list FsEntry) :
  l !! i = Some e -> alter f i l = <[i := f e]> l.
Proof.
  intros H. apply list_eq. intros j.
  destruct (decide (i = j)) as [<- | Hne].
  - rewrite list_lookup_alter_eq, H. simpl.
    rewrite list_lookup_insert_eq; [reflexivity|].
    apply lookup_lt_Some in H. exact H.
  - rewrite list_lookup_alter_ne, list_lookup_insert_ne; auto.
Qed.

Lemma fs_find_some (dir : list FsEntry) (nm : string) :
  0 <= fs_find dir nm ->
  exists i e, list_find (holds_name nm) dir = Some (i, e) /\ fs_find dir nm = Z.of_nat i.
Proof.
  unfold fs_find. destruct (list_find (holds_name nm) dir) as [[i e]|]; [|lia].
  intros _. exists i, e. split; reflexivity.
Qed.

Lemma fs_find_none (dir : list FsEntry) (nm : string) :
  fs_find dir nm < 0 ->
  forall (i : nat) (e : FsEntry), dir !! i = Some e -> active e -> name e <> nm.
Proof.
  unfold fs_find. destruct (list_find (holds_name nm) dir) as [[k x]|] eqn:E; [lia|].
  intros _ i e Hi Ha Hn.
  apply list_find_None in E.
  rewrite Forall_lookup in E. apply (E i e Hi).
  split; [exact Ha|]. apply strcmp_eq. exact Hn.
Qed.

(** [fs_find] is either -1 or an index of the table. *)
Lemma fs_find_range (dir : list FsEntry) (nm : string) :
  fs_find dir nm = -1 \/ 0 <= fs_find dir nm < Z.of_nat (length dir).
Proof.
  unfold fs_find. destruct (list_find (holds_name nm) dir) as [[k x]|] eqn:E.
  - right. apply list_find_Some in E as (Hk & _). apply lookup_lt_Some in Hk. lia.
  - left. reflexivity.
Qed.

Lemma find_slot_some (dir : list FsEntry) :
  0 <= find_slot dir ->
  exists i e, list_find is_free dir = Some (i, e) /\ find_slot dir = Z.of_nat i.
Proof.
  unfold find_slot. destruct (list_find is_free dir) as [[i e]|]; [|lia].
  intros _. exists i, e. split; reflexivity.
Qed.

Lemma tokens_upper (line c : string) (a1 a2 : option string) :
  is_upper line = true -> tokens line = Some (c, a1, a2) ->
  is_upper c = true /\ is_upper (arg a1) = true /\ is_upper (arg a2) = true.
Proof.
  intros Hu. unfold tokens.
  destruct (next_token (Some line)) as [c0|] eqn:E0; [|discriminate].
  pose proof (next_token_upper _ _ Hu E0) as Hc0.
  destruct (cut_token_upper c0 Hc0) as [Hc Hp].
  destruct (cut_token c0) as [cm p]. simpl in Hc, Hp.
  assert (Hopt : forall q t, (forall r, q = Some r -> is_upper r = true) ->
                             next_token q = Some t -> is_upper t = true).
  { intros [r|] t Hr Ht; [|discriminate].
    apply (next_token_upper r t (Hr r eq_refl) Ht). }
  destruct (next_token p) as [a|] eqn:E1.
  - pose proof (Hopt p a Hp E1) as Ha.
    destruct (cut_token_upper a Ha) as [Ht Hq].
    destruct (cut_token a) as [t q]. simpl in Ht, Hq.
    intros [= <- <- <-]. repeat split; try assumption.
    destruct (next_token q) as [b|] eqn:E2; [|reflexivity].
    simpl. eapply Hopt; eauto.
  - intros [= <- <- <-]. rewrite E1. repeat split; try assumption; reflexivity.
Qed.

(** The command keyword and the first argument end at a space; the second
    argument is whatever [next_token] finds after the first, uncut. *)
Lemma tokens_cut (line c : string) (a1 a2 : option string) :
  tokens line = Some (c, a1, a2) ->
  has_space c = false /\ has_space (arg a1) = false /\
  (a2 <> None -> exists rest, a2 = next_token (Some rest)).
Proof.
  unfold tokens.
  destruct (next_token (Some line)) as [c0|]; [|discriminate].
  pose proof (cut_token_no_space c0) as Hc.
  destruct (cut_token c0) as [cm p]. simpl in Hc.
  destruct (next_token p) as [a|] eqn:E1.
  - pose proof (cut_token_no_space a) as Ha.
    destruct (cut_token a) as [t q]. simpl in Ha.
    intros [= <- <- <-]. repeat split; try assumption.
    intros Hq. destruct q as [r|]; [exists r; reflexivity | contradiction].
  - intros [= <- <- <-]. repeat split; try assumption.
    intros Hq. destruct p as [r|]; [exists r; reflexivity | contradiction].
Qed.

Lemma missing_false (p : option string) :
  missing p = false -> exists s, p = Some s /\ s <> EmptyString.
Proof.
  destruct p as [[|c r]|]; simpl; try discriminate.
  intros _. eexists. split; [reflexivity | discriminate].
Qed.

Lemma cmd_create_dir_step (nm sz : option string) (st : kstate) :
  is_upper (arg nm) = true -> dir_step (g_dir st) (g_dir (cmd_create nm sz st)).
Proof.
  intros Hu. unfold cmd_create.
  destruct (missing nm || missing sz) eqn:Em; [apply dir_same|].
  apply orb_false_iff in Em as [Em _].
  destruct (missing_false nm Em) as (n & -> & _). simpl in *.
  destruct (strlen n >=? MAX_NAME) eqn:El; [apply dir_same|].
  destruct (fs_find (g_dir st) n >=? 0) eqn:Ef; [apply dir_same|].
  destruct (parse_uint (arg sz) =? 0) eqn:Ep; [apply dir_same|].
  destruct (find_slot (g_dir st) <? 0) eqn:Es; [apply dir_same|].
  destruct (kmalloc _ _ _) as [[d p] h].
  destruct (d =? 0); [apply dir_same|].
  destruct (find_slot_some (g_dir st)) as (i & e & Hfind & ->); [lia|].
  rewrite Nat2Z.id. simpl.
  pose proof Hfind as Hl. apply list_find_Some in Hl as (Hl & _).
  rewrite (alter_as_insert _ _ _ _ Hl). unfold create_entry.
  rewrite copy_bounded_short by lia.
  eapply dir_created; eauto; lia.
Qed.

Lemma cmd_rename_dir_step (oldn newn : option string) (st : kstate) :
  is_upper (arg newn) = true -> dir_step (g_dir st) (g_dir (cmd_rename oldn newn st)).
Proof.
  intros Hu. unfold cmd_rename.
  destruct (missing oldn || missing newn) eqn:Em; [apply dir_same|].
  apply orb_false_iff in Em as [_ Em].
  destruct (missing_false newn Em) as (n & -> & _). simpl in *.
  destruct (strlen n >=? MAX_NAME) eqn:El; [apply dir_same|].
  destruct (fs_find (g_dir st) (arg oldn) <? 0) eqn:Ei; [apply dir_same|].
  destruct (fs_find (g_dir st) n >=? 0) eqn:Ef; [apply dir_same|].
  destruct (fs_find_some (g_dir st) (arg oldn)) as (i & e & Hfind & ->); [lia|].
  rewrite Nat2Z.id. simpl.
  pose proof Hfind as Hl. apply list_find_Some in Hl as (Hl & _).
  rewrite (alter_as_insert _ _ _ _ Hl). unfold rename_entry.
  rewrite copy_bounded_short by lia.
  eapply dir_renamed; eauto; lia.
Qed.

Lemma cmd_del_dir_step (nm : option string) (st : kstate) :
  dir_step (g_dir st) (g_dir (cmd_del nm st)).
Proof.
  unfold cmd_del.
  destruct (missing nm); [apply dir_same|].
  destruct (fs_find (g_dir st) (arg nm) <? 0) eqn:Ei; [apply dir_same|].
  destruct (fs_find_some (g_dir st) (arg nm)) as (i & e & Hfind & ->); [lia|].
  rewrite Nat2Z.id. simpl.
  pose proof Hfind as Hl. apply list_find_Some in Hl as (Hl & _).
  rewrite (alter_as_insert _ _ _ _ Hl). unfold clear_entry.
  eapply dir_deleted; eauto.
Qed.

Lemma user_input_dir_step (line : string) (st : kstate) :
  dir_step (g_dir st) (g_dir (user_input line st)).
Proof.
  destruct (user_input_cases line st)
    as [[-> _] | [[-> _] | [[-> _] | (c & a1 & a2 & Ht & _ & _ & ->)]]].
  - apply dir_same.
  - rewrite cmd_page_dir. apply dir_same.
  - apply dir_same.
  - destruct (tokens_upper _ _ _ _ (to_upper_is_upper line) Ht) as (_ & H1 & H2).
    change (g_dir (kprint "> " (dispatch c a1 a2 st)))
      with (g_dir (dispatch c a1 a2 st)).
    unfold dispatch. split_ifs.
    + destruct (cmd_list_frame st) as (-> & _). apply dir_same.
    + apply cmd_create_dir_step. exact H1.
    + apply cmd_rename_dir_step. exact H2.
    + apply cmd_del_dir_step.
    + apply dir_same.
Qed.

(** ** Invariants of the directory table *)

Lemma dir_step_length (dir dir' : list FsEntry) :
  dir_step dir dir' -> length dir' = length dir.
Proof. intros H. destruct H; rewrite ?length_insert; reflexivity. Qed.

Lemma dir_step_unique (dir dir' : list FsEntry) :
  dir_step dir dir' -> unique_names dir -> unique_names dir'.
Proof.
  intros H U. destruct H as [| i e nm sz d p Hf Hu Hl Hn Hp | i e old nm Hf Hu Hl Hn | i e nm Hf].
  - exact U.
  - pose proof (fs_find_none _ _ Hn) as Hfresh.
    intros a b e1 e2 Ha Hb A1 A2 Heq.
    apply list_lookup_insert_Some in Ha as [(-> & <- & _) | (Hia & Ha)];
      apply list_lookup_insert_Some in Hb as [(-> & <- & _) | (Hib & Hb)];
      simpl in *.
    + reflexivity.
    + exfalso. apply (Hfresh b e2 Hb A2). symmetry. exact Heq.
    + exfalso. apply (Hfresh a e1 Ha A1). exact Heq.
    + eapply U; eauto.
  - pose proof (fs_find_none _ _ Hn) as Hfresh.
    intros a b e1 e2 Ha Hb A1 A2 Heq.
    apply list_lookup_insert_Some in Ha as [(-> & <- & _) | (Hia & Ha)];
      apply list_lookup_insert_Some in Hb as [(-> & <- & _) | (Hib & Hb)];
      simpl in *.
    + reflexivity.
    + exfalso. apply (Hfresh b e2 Hb A2). symmetry. exact Heq.
    + exfalso. apply (Hfresh a e1 Ha A1). exact Heq.
    + eapply U; eauto.
  - intros a b e1 e2 Ha Hb A1 A2 Heq.
    apply list_lookup_insert_Some in Ha as [(-> & <- & _) | (Hia & Ha)].
    { exfalso. apply A1. reflexivity. }
    apply list_lookup_insert_Some in Hb as [(-> & <- & _) | (Hib & Hb)].
    { exfalso. apply A2. reflexivity. }
    eapply U; eauto.
Qed.

Lemma dir_step_upper (dir dir' : list FsEntry) :
  dir_step dir dir' -> names_upper dir -> names_upper dir'.
Proof.
  intros H U. destruct H as [| i e nm sz d p Hf Hu Hl Hn Hp | i e old nm Hf Hu Hl Hn | i e nm Hf].
  - exact U.
  - intros a e1 Ha A1.
    apply list_lookup_insert_Some in Ha as [(-> & <- & _) | (Hia & Ha)]; [exact Hu|].
    eapply U; eauto.
  - intros a e1 Ha A1.
    apply list_lookup_insert_Some in Ha as [(-> & <- & _) | (Hia & Ha)]; [exact Hu|].
    eapply U; eauto.
  - intros a e1 Ha A1.
    apply list_lookup_insert_Some in Ha as [(-> & <- & _) | (Hia & Ha)].
    { exfalso. apply A1. reflexivity. }
    eapply U; eauto.
Qed.

Lemma fs_init_dir (raw : list FsEntry) (st : kstate) :
  g_dir (fs_init raw st) = map mark_free raw.
Proof. unfold fs_init. destruct (kmalloc _ _ _) as [[a p] h]. reflexivity. Qed.

Lemma kernel_main_dir (raw : list FsEntry) (st : kstate) :
  g_dir (kernel_main raw st) = map mark_free raw.
Proof.
  unfold kernel_main. fields.
  match goal with |- g_dir (cmd_list ?s) = _ => destruct (cmd_list_frame s) as (-> & _) end.
  fields. apply fs_init_dir.
Qed.

Lemma boot_all_free (raw : list FsEntry) (i : nat) (e : FsEntry) :
  map mark_free raw !! i = Some e -> used e = 0.
Proof.
  intros H. change (map mark_free raw) with (mark_free <$> raw) in H.
  rewrite list_lookup_fmap in H.
  destruct (raw !! i); [|discriminate]. injection H as <-. reflexivity.
Qed.

(** An invariant of the directory: it holds of a table of free slots and
    every transition keeps it. *)
Lemma reachable_invariant (I : list FsEntry -> Prop) :
  (forall raw, Z.of_nat (length raw) = MAX_FILES -> I (map mark_free raw)) ->
  (forall dir dir', dir_step dir dir' -> I dir -> I dir') ->
  forall st, reachable st -> I (g_dir st).
Proof.
  intros Hboot Hstep st R. induction R as [raw h scr Hlen | line st R IH].
  - rewrite kernel_main_dir. apply Hboot. exact Hlen.
  - apply (Hstep (g_dir st)); [apply user_input_dir_step | exact IH].
Qed.

Lemma reachable_length (st : kstate) :
  reachable st -> Z.of_nat (length (g_dir st)) = MAX_FILES.
Proof.
  apply (reachable_invariant (fun d => Z.of_nat (length d) = MAX_FILES)).
  - intros raw H. rewrite length_map. exact H.
  - intros dir dir' Hs H. rewrite (dir_step_length _ _ Hs). exact H.
Qed.

(** C8: in every state reachable from boot by any sequence of input lines,
    no two slots in use carry the same name. *)
Theorem names_unique_when_reachable (st : kstate) :
  reachable st -> unique_names (g_dir st).
Proof.
  apply (reachable_invariant unique_names).
  - intros raw _ i j e1 e2 Hi _ A1 _ _.
    exfalso. apply A1. eapply boot_all_free; eauto.
  - apply dir_step_unique.
Qed.

Lemma user_input_upper (line : string) (st : kstate) :
  user_input (to_upper_inplace line) st = user_input line st.
Proof. unfold user_input. rewrite to_upper_inplace_idem. reflexivity. Qed.

(** C7: processing a line is the same as processing its uppercased form
    (same resulting state, console included), in particular for
    'create foo 10' and 'CREATE FOO 10'; and in every reachable state every
    name in use is uppercase. *)
Theorem input_is_case_insensitive (st : kstate) (line : string) :
  user_input line st = user_input (to_upper_inplace line) st /\
  user_input "create foo 10" st = user_input "CREATE FOO 10" st /\
  (reachable st -> names_upper (g_dir st)).
Proof.
  split; [symmetry; apply user_input_upper|].
  split; [rewrite <- (user_input_upper "create foo 10"); reflexivity|].
  apply (reachable_invariant names_upper).
  - intros raw _ i e Hi A. exfalso. apply A. eapply boot_all_free; eauto.
  - apply dir_step_upper.
Qed.

(** ** Capacity and slot allocation *)

(** A CREATE that passes the four argument checks reaches the slot search. *)
Lemma cmd_create_valid (st : kstate) (nm sz : string) :
  nm <> EmptyString -> sz <> EmptyString -> strlen nm < MAX_NAME ->
  fs_find (g_dir st) nm < 0 -> parse_uint sz <> 0 ->
  cmd_create (Some nm) (Some sz) st =
  if find_slot (g_dir st) <? 0 then kprint ("ERR: directory full" ++ nl) st
  else
    let '(d, p, h) := kmalloc (round_up_page (parse_uint sz)) 1 (heap st) in
    if d =? 0 then kprint ("ERR: kmalloc failed" ++ nl) (set_heap h st)
    else created (Z.to_nat (find_slot (g_dir st))) nm (parse_uint sz) d p h st.
Proof.
  intros Hn Hs Hl Hf Hp. unfold cmd_create.
  assert (E1 : missing (Some nm) || missing (Some sz) = false).
  { destruct nm; [congruence|]. destruct sz; [congruence|]. reflexivity. }
  rewrite E1. simpl arg.
  assert (E2 : (strlen nm >=? MAX_NAME) = false) by lia. rewrite E2.
  assert (E3 : (fs_find (g_dir st) nm >=? 0) = false) by lia. rewrite E3.
  assert (E4 : (parse_uint sz =? 0) = false) by lia. rewrite E4.
  destruct (find_slot (g_dir st) <? 0) eqn:E5; [reflexivity|].
  destruct (kmalloc _ _ _) as [[d p] h].
  destruct (d =? 0); [reflexivity|].
  destruct (find_slot_some (g_dir st)) as (i & e & Hfind & Hi); [lia|].
  rewrite Hi, Nat2Z.id.
  apply list_find_Some in Hfind as (Hlk & _).
  unfold created, seq. simpl.
  rewrite (alter_as_insert _ _ _ _ Hlk). unfold create_entry.
  rewrite copy_bounded_short by lia. reflexivity.
Qed.

Lemma find_slot_lowest (dir : list FsEntry) (i : nat) :
  lowest_free dir i -> find_slot dir = Z.of_nat i.
Proof.
  intros [(e & Hi & He) Hlow]. unfold find_slot.
  assert (H : list_find is_free dir = Some (i, e)).
  { apply list_find_Some. split; [exact Hi|]. split; [exact He|].
    intros j y Hj Hlt Hy. apply (Hlow j y Hlt Hj). exact Hy. }
  rewrite H. reflexivity.
Qed.

Lemma find_slot_full (dir : list FsEntry) :
  (forall i e, dir !! i = Some e -> active e) -> find_slot dir = -1.
Proof.
  intros Hall. unfold find_slot.
  assert (H : list_find is_free dir = None).
  { apply list_find_None. apply Forall_lookup. intros i e Hi He.
    apply (Hall i e Hi). exact He. }
  rewrite H. reflexivity.
Qed.

Lemma find_slot_is_lowest (dir : list FsEntry) :
  0 <= find_slot dir -> lowest_free dir (Z.to_nat (find_slot dir)).
Proof.
  intros H. destruct (find_slot_some dir H) as (i & e & Hfind & ->).
  rewrite Nat2Z.id. apply list_find_Some in Hfind as (Hi & He & Hlow).
  split; [exists e; split; assumption|].
  intros j e' Hlt Hj Hfree. apply (Hlow j e' Hj Hlt).
  exact Hfree.
Qed.

Lemma active_count_le (dir : list FsEntry) : (active_count dir <= length dir)%nat.
Proof. unfold active_count. apply length_filter. Qed.

(** What a successful DEL leaves: the slot that held the name is free. *)
Lemma cmd_del_ok (victim : option string) (st : kstate) :
  screen (cmd_del victim st) = screen st ++ [("OK" ++ nl)%string] ->
  exists k e, g_dir st !! k = Some e /\ active e /\ name e = arg victim /\
              cmd_del victim st = kprint ("OK" ++ nl) (set_dir (<[k := clear_entry e]> (g_dir st)) st).
Proof.
  unfold cmd_del.
  destruct (missing victim).
  { simpl. intros H. apply app_inv_head in H. vm_compute in H. discriminate. }
  destruct (fs_find (g_dir st) (arg victim) <? 0) eqn:E.
  { simpl. intros H. apply app_inv_head in H. vm_compute in H. discriminate. }
  intros _.
  destruct (fs_find_some (g_dir st) (arg victim)) as (k & e & Hfind & ->); [lia|].
  rewrite Nat2Z.id.
  apply list_find_Some in Hfind as (Hk & (Ha & Hn) & _).
  exists k, e. repeat split; try assumption.
  - apply strcmp_eq. exact Hn.
  - unfold seq. rewrite (alter_as_insert _ _ _ _ Hk). reflexivity.
Qed.

(** C3: a reachable directory has 16 slots, so at most 16 records are
    active.  For a CREATE that passes the argument checks (name and size
    present, name shorter than MAX_NAME and not active, parsed size not 0):
    when every slot is in use it fails with 'directory full' and changes
    nothing; when slot [i] is the free slot of lowest index and the
    allocation succeeds, exactly slot [i] is populated; and on the directory
    that a successful DEL leaves it succeeds whenever the allocation does,
    in the free slot of lowest index, which is the freed one or a free slot
    before it. *)
Theorem create_capacity_and_slot_order (st : kstate) (nm sz : string) :
  nm <> EmptyString -> sz <> EmptyString -> strlen nm < MAX_NAME ->
  fs_find (g_dir st) nm < 0 -> parse_uint sz <> 0 ->
  (reachable st ->
     Z.of_nat (length (g_dir st)) = MAX_FILES /\ (Z.of_nat (active_count (g_dir st)) <= 16)) /\
  ((forall i e, g_dir st !! i = Some e -> active e) ->
     cmd_create (Some nm) (Some sz) st = kprint ("ERR: directory full" ++ nl) st) /\
  (forall (i : nat) (d p : Z) (h : Heap),
     lowest_free (g_dir st) i ->
     kmalloc (round_up_page (parse_uint sz)) 1 (heap st) = (d, p, h) -> d <> 0 ->
     cmd_create (Some nm) (Some sz) st = created i nm (parse_uint sz) d p h st) /\
  (forall (st0 : kstate) (victim : option string) (d p : Z) (h : Heap),
     g_dir st = g_dir (cmd_del victim st0) ->
     screen (cmd_del victim st0) = screen st0 ++ [("OK" ++ nl)%string] ->
     kmalloc (round_up_page (parse_uint sz)) 1 (heap st) = (d, p, h) -> d <> 0 ->
     exists (i k : nat) (e : FsEntry),
       g_dir st0 !! k = Some e /\ name e = arg victim /\ active e /\ (i <= k)%nat /\
       lowest_free (g_dir st) i /\
       cmd_create (Some nm) (Some sz) st = created i nm (parse_uint sz) d p h st).
Proof.
  intros Hn Hs Hl Hf Hp.
  pose proof (cmd_create_valid st nm sz Hn Hs Hl Hf Hp) as Hc.
  split; [|split; [|split]].
  - intros R. pose proof (reachable_length st R) as Hlen. split; [exact Hlen|].
    pose proof (active_count_le (g_dir st)) as Hcnt. unfold MAX_FILES in Hlen.
    clear -Hcnt Hlen. lia.
  - intros Hall. rewrite Hc, (find_slot_full _ Hall). reflexivity.
  - intros i d p h Hlow Hk Hd. rewrite Hc, (find_slot_lowest _ _ Hlow), Hk.
    assert (E : (Z.of_nat i <? 0) = false) by (apply Z.ltb_ge; lia). rewrite E.
    assert (E' : (d =? 0) = false) by (apply Z.eqb_neq; exact Hd). rewrite E'.
    rewrite Nat2Z.id. reflexivity.
  - intros st0 victim d p h Hst Hok Hk Hd.
    destruct (cmd_del_ok victim st0 Hok) as (k & e & Hke & Ha & Hne & Hdel).
    assert (Hfree : exists e', g_dir st !! k = Some e' /\ used e' = 0).
    { exists (clear_entry e). rewrite Hst, Hdel. simpl. split; [|reflexivity].
      apply list_lookup_insert_eq. apply lookup_lt_Some in Hke. exact Hke. }
    destruct Hfree as (e' & Hk' & He').
    assert (Hsome : is_Some (list_find is_free (g_dir st))).
    { eapply list_find_elem_of; [|exact He']. eapply list_elem_of_lookup_2. exact Hk'. }
    destruct Hsome as [[i x] Hfind].
    assert (Hslot : find_slot (g_dir st) = Z.of_nat i).
    { unfold find_slot. rewrite Hfind. reflexivity. }
    pose proof (find_slot_is_lowest (g_dir st)) as Hlow.
    rewrite Hslot, Nat2Z.id in Hlow. specialize (Hlow ltac:(lia)).
    exists i, k, e. repeat split; try assumption.
    + destruct (le_lt_dec i k) as [Hle | Hgt]; [exact Hle|].
      exfalso. destruct Hlow as [_ Hbefore].
      apply (Hbefore k e' Hgt Hk'). exact He'.
    + apply Hlow.
    + apply Hlow.
    + rewrite Hc, Hslot, Hk.
      assert (E : (Z.of_nat i <? 0) = false) by (apply Z.ltb_ge; lia). rewrite E.
      assert (E' : (d =? 0) = false) by (apply Z.eqb_neq; exact Hd). rewrite E'.
      rewrite Nat2Z.id. reflexivity.
Qed.

(** ** The argument checks of CREATE and RENAME *)

Ltac other_message H :=
  simpl in H; apply app_inv_head in H; vm_compute in H; discriminate H.

Lemma cmd_create_too_long (st : kstate) (a b : option string) :
  missing a = false -> missing b = false ->
  (screen (cmd_create a b st) = screen st ++ [("ERR: name too long" ++ nl)%string]
   <-> MAX_NAME <= strlen (arg a)).
Proof.
  intros Ha Hb. unfold cmd_create. rewrite Ha, Hb. simpl orb. cbv iota.
  destruct (strlen (arg a) >=? MAX_NAME) eqn:E.
  { split; [lia | reflexivity]. }
  split; [|lia]. intros Hscr. exfalso. revert Hscr.
  split_ifs; intros Hmsg; other_message Hmsg.
Qed.

Lemma cmd_rename_too_long (st : kstate) (a b : option string) :
  missing a = false -> missing b = false ->
  (screen (cmd_rename a b st) = screen st ++ [("ERR: name too long" ++ nl)%string]
   <-> MAX_NAME <= strlen (arg b)).
Proof.
  intros Ha Hb. unfold cmd_rename. rewrite Ha, Hb. simpl orb. cbv iota.
  destruct (strlen (arg b) >=? MAX_NAME) eqn:E.
  { split; [lia | reflexivity]. }
  split; [|lia]. intros Hscr. exfalso. revert Hscr.
  split_ifs; intros Hmsg; other_message Hmsg.
Qed.

(** C4 (amended): MAX_NAME is 16.  A CREATE with both arguments present
    answers 'name too long' exactly when the name has 16 characters or
    more, and a RENAME with both arguments present exactly when the new
    name has; in that case nothing but the console changes, so the
    directory is unchanged. *)
Theorem name_too_long_from_16 (st : kstate) (a b : option string) :
  missing a = false -> missing b = false ->
  MAX_NAME = 16 /\
  (screen (cmd_create a b st) = screen st ++ [("ERR: name too long" ++ nl)%string]
   <-> 16 <= strlen (arg a)) /\
  (16 <= strlen (arg a) ->
   cmd_create a b st = kprint ("ERR: name too long" ++ nl) st /\
   g_dir (cmd_create a b st) = g_dir st) /\
  (screen (cmd_rename a b st) = screen st ++ [("ERR: name too long" ++ nl)%string]
   <-> 16 <= strlen (arg b)) /\
  (16 <= strlen (arg b) ->
   cmd_rename a b st = kprint ("ERR: name too long" ++ nl) st /\
   g_dir (cmd_rename a b st) = g_dir st).
Proof.
  intros Ha Hb. split; [reflexivity|].
  split; [apply (cmd_create_too_long st a b Ha Hb)|].
  split.
  { intros H. unfold cmd_create. rewrite Ha, Hb. simpl orb. cbv iota.
    assert (E : (strlen (arg a) >=? MAX_NAME) = true) by (unfold MAX_NAME; lia).
    rewrite E. split; reflexivity. }
  split; [apply (cmd_rename_too_long st a b Ha Hb)|].
  intros H. unfold cmd_rename. rewrite Ha, Hb. simpl orb. cbv iota.
  assert (E : (strlen (arg b) >=? MAX_NAME) = true) by (unfold MAX_NAME; lia).
  rewrite E. split; reflexivity.
Qed.

Lemma wrap32_range (z : Z) : 0 <= wrap32 z < 2 ^ 32.
Proof. unfold wrap32. apply Z.mod_pos_bound. lia. Qed.

Lemma parse_digits_range (s : string) (v : Z) (any : bool) :
  0 <= v < 2 ^ 32 -> 0 <= fst (parse_digits s v any) < 2 ^ 32.
Proof.
  revert v any. induction s as [|c r IH]; intros v any Hv; simpl; [exact Hv|].
  destruct (is_digit c); [|exact Hv].
  apply IH. apply wrap32_range.
Qed.

Lemma parse_uint_range (s : string) : 0 <= parse_uint s < 2 ^ 32.
Proof.
  unfold parse_uint.
  pose proof (parse_digits_range (skip_spaces s) 0 false ltac:(lia)) as H.
  destruct (parse_digits (skip_spaces s) 0 false) as [v any]. simpl in H.
  destruct any; lia.
Qed.

Lemma parse_uint_no_digit (s : string) : leading_digit s = false -> parse_uint s = 0.
Proof.
  unfold leading_digit, parse_uint.
  destruct (skip_spaces s) as [|c r]; simpl; [reflexivity|].
  intros ->. reflexivity.
Qed.

(** C5 (amended): for a CREATE that has passed the earlier checks (both
    arguments present, name shorter than 16 characters and not active): when
    the size text is '0' or does not begin with a decimal digit, and
    whenever [parse_uint] gives 0 for it, the answer is 'size must be > 0',
    the directory is unchanged and nothing is allocated (the heap is
    unchanged); CREATE goes past this check exactly when the parsed size
    is > 0. *)
Theorem size_must_be_positive (st : kstate) (nm sz : option string) :
  missing nm = false -> missing sz = false ->
  strlen (arg nm) < MAX_NAME -> fs_find (g_dir st) (arg nm) < 0 ->
  (parse_uint (arg sz) = 0 ->
   cmd_create nm sz st = kprint ("ERR: size must be > 0" ++ nl) st /\
   g_dir (cmd_create nm sz st) = g_dir st /\ heap (cmd_create nm sz st) = heap st) /\
  (screen (cmd_create nm sz st) <> screen st ++ [("ERR: size must be > 0" ++ nl)%string]
   -> 0 < parse_uint (arg sz)) /\
  (0 < parse_uint (arg sz) ->
   screen (cmd_create nm sz st) <> screen st ++ [("ERR: size must be > 0" ++ nl)%string]) /\
  parse_uint "0" = 0 /\
  (leading_digit (arg sz) = false -> parse_uint (arg sz) = 0).
Proof.
  intros Hn Hs Hl Hf.
  assert (Hzero : parse_uint (arg sz) = 0 ->
                  cmd_create nm sz st = kprint ("ERR: size must be > 0" ++ nl) st).
  { intros Hp. unfold cmd_create. rewrite Hn, Hs. simpl orb. cbv iota.
    assert (E2 : (strlen (arg nm) >=? MAX_NAME) = false) by lia. rewrite E2.
    assert (E3 : (fs_find (g_dir st) (arg nm) >=? 0) = false) by lia. rewrite E3.
    rewrite Hp. reflexivity. }
  split; [|split; [|split; [|split]]].
  - intros Hp. rewrite (Hzero Hp). repeat split; reflexivity.
  - intros Hne. pose proof (parse_uint_range (arg sz)) as Hr.
    destruct (Z.eq_dec (parse_uint (arg sz)) 0) as [Hp | Hp]; [|lia].
    exfalso. apply Hne. rewrite (Hzero Hp). reflexivity.
  - intros Hp. unfold cmd_create. rewrite Hn, Hs. simpl orb. cbv iota.
    assert (E2 : (strlen (arg nm) >=? MAX_NAME) = false) by lia. rewrite E2.
    assert (E3 : (fs_find (g_dir st) (arg nm) >=? 0) = false) by lia. rewrite E3.
    assert (E4 : (parse_uint (arg sz) =? 0) = false) by lia. rewrite E4.
    split_ifs; intros Hmsg; other_message Hmsg.
  - reflexivity.
  - apply parse_uint_no_digit.
Qed.

(** ** END and PAGE *)

Lemma run_halted (rest : list string) (st : kstate) :
  halted st = true -> run rest st = st.
Proof.
  intros H. unfold run. induction rest as [|l rest IH]; simpl; [reflexivity|].
  unfold step at 2. rewrite H. exact IH.
Qed.

(** C9: when a line whose uppercased form is END reaches a running
    machine, the farewell message is printed, nothing else changes, the
    machine is halted, and whatever lines follow, the state stays as it is:
    no later line changes the directory or prints. *)
Theorem end_halts_for_good (st : kstate) (line : string) (rest : list string) :
  halted st = false -> to_upper_inplace line = "END"%string ->
  screen (step line st) = screen st ++ [("Stopping the CPU. Bye!" ++ nl)%string] /\
  g_dir (step line st) = g_dir st /\ heap (step line st) = heap st /\
  halted (step line st) = true /\
  run rest (step line st) = step line st.
Proof.
  intros Hrun Hend.
  assert (E : step line st = hlt (kprint ("Stopping the CPU. Bye!" ++ nl) st)).
  { unfold step. rewrite Hrun. unfold user_input. rewrite Hend. reflexivity. }
  rewrite E. repeat split. apply run_halted. reflexivity.
Qed.

Lemma cmd_page_halted (st : kstate) : halted (cmd_page st) = halted st.
Proof. unfold cmd_page. split_ifs. reflexivity. Qed.

Lemma dispatch_halted (c : string) (a1 a2 : option string) (st : kstate) :
  halted (dispatch c a1 a2 st) = halted st.
Proof.
  unfold dispatch. split_ifs; try reflexivity.
  - apply cmd_list_frame.
  - unfold cmd_create. split_ifs; reflexivity.
  - unfold cmd_rename. split_ifs; reflexivity.
  - unfold cmd_del. split_ifs; reflexivity.
Qed.

(** Only the exact line END halts the machine. *)
Lemma halts_only_on_end (line : string) (st : kstate) :
  halted st = false ->
  (halted (user_input line st) = true <-> to_upper_inplace line = "END"%string).
Proof.
  intros Hrun.
  destruct (user_input_cases line st)
    as [[-> He] | [[-> Hp] | [[-> Ht] | (c & a1 & a2 & _ & Hne & _ & ->)]]].
  - split; [intros _; exact He | reflexivity].
  - rewrite cmd_page_halted, Hrun, Hp. split; discriminate.
  - simpl. rewrite Hrun. split; [discriminate|].
    intros He. rewrite He in Ht. vm_compute in Ht. discriminate.
  - simpl. rewrite dispatch_halted, Hrun. split; [discriminate | contradiction].
Qed.

(** C10 (amended): when the command keyword of a line (its first token
    after uppercasing) is END or PAGE but the uppercased line is not exactly
    that keyword, the line goes through the dispatcher: the answer is
    'Unknown command' followed by the prompt and nothing else changes, so
    the machine does not halt and nothing is allocated.  A running machine
    halts on a line only when its uppercased form is exactly END. *)
Theorem keyword_must_be_whole_line (st : kstate) (line kw : string) :
  kw = "END"%string \/ kw = "PAGE"%string ->
  keyword line = Some kw -> to_upper_inplace line <> kw ->
  user_input line st = kprint "> " (kprint ("Unknown command" ++ nl) st) /\
  halted (user_input line st) = halted st /\
  heap (user_input line st) = heap st /\
  g_dir (user_input line st) = g_dir st /\
  (forall l : string, halted st = false ->
     (halted (user_input l st) = true <-> to_upper_inplace l = "END"%string)).
Proof.
  intros Hkw Hkey Hne.
  assert (E : user_input line st = kprint "> " (kprint ("Unknown command" ++ nl) st)).
  { unfold keyword in Hkey.
    destruct (user_input_cases line st)
      as [[_ He] | [[_ Hp] | [[_ Ht] | (c & a1 & a2 & Ht & _ & _ & ->)]]].
    - rewrite He in Hkey, Hne. vm_compute in Hkey. injection Hkey as <-. contradiction.
    - rewrite Hp in Hkey, Hne. vm_compute in Hkey. injection Hkey as <-. contradiction.
    - rewrite Ht in Hkey. discriminate.
    - rewrite Ht in Hkey. injection Hkey as ->.
      destruct Hkw as [-> | ->]; reflexivity. }
  rewrite E. do 4 (split; [reflexivity|]).
  intros l Hrun. apply halts_only_on_end. exact Hrun.
Qed.

(** ** Page rounding *)

Lemma mask_is_lnot : wrap32 (Z.lnot (4096 - 1)) = Z.land (Z.lnot (Z.ones 12)) (Z.ones 32).
Proof. reflexivity. Qed.

(** On a 32-bit value the mask clears the twelve low bits. *)
Lemma land_page_mask (x : Z) :
  0 <= x < 2 ^ 32 -> Z.land x (wrap32 (Z.lnot (4096 - 1))) = 4096 * (x / 4096).
Proof.
  intros Hx. rewrite mask_is_lnot.
  rewrite (Z.land_comm (Z.lnot (Z.ones 12))), Z.land_assoc.
  rewrite (Z.land_ones x 32) by lia.
  rewrite (Z.mod_small x (2 ^ 32)) by lia.
  change (Z.land x (Z.lnot (Z.ones 12))) with (Z.ldiff x (Z.ones 12)).
  rewrite Z.ldiff_ones_r by lia.
  rewrite Z.shiftr_div_pow2, Z.shiftl_mul_pow2 by lia.
  change (2 ^ 12) with 4096. lia.
Qed.

Lemma round_up_page_div (n : Z) :
  round_up_page n = 4096 * (wrap32 (n + 4096 - 1) / 4096).
Proof. unfold round_up_page. apply land_page_mask. apply wrap32_range. Qed.

(** The result is a multiple of the page size, whatever the request. *)
Lemma round_up_page_multiple (n : Z) : page_multiple (round_up_page n).
Proof. rewrite round_up_page_div. eexists. reflexivity. Qed.

(** Up to 4294963200 bytes the result is the smallest multiple of the page
    size that holds the request. *)
Lemma round_up_page_smallest (n : Z) :
  0 <= n <= 4294963200 -> smallest_page_multiple n (round_up_page n).
Proof.
  intros Hn. rewrite round_up_page_div.
  unfold wrap32. rewrite Z.mod_small by lia.
  split; [eexists; reflexivity|].
  split.
  - pose proof (Z.div_mod (n + 4096 - 1) 4096 ltac:(lia)).
    pose proof (Z.mod_pos_bound (n + 4096 - 1) 4096 ltac:(lia)). lia.
  - intros m' [k ->] Hle.
    assert (Hk : (n + 4096 - 1) / 4096 < k + 1).
    { apply Z.div_lt_upper_bound; lia. }
    lia.
Qed.

(** Above that the sum wraps around and the result is 0. *)
Lemma round_up_page_wraps (n : Z) :
  4294963200 < n < 2 ^ 32 -> round_up_page n = 0.
Proof.
  intros Hn. rewrite round_up_page_div. unfold wrap32.
  replace ((n + 4096 - 1) mod 2 ^ 32) with (n + 4096 - 1 - 2 ^ 32).
  - rewrite Z.div_small; lia.
  - apply Z.mod_unique with (q := 1); lia.
Qed.

Lemma dir_step_alloc (dir dir' : list FsEntry) :
  dir_step dir dir' -> alloc_rounded dir -> alloc_rounded dir'.
Proof.
  intros H A. destruct H as [| i e nm sz d p Hf Hu Hl Hn Hp | i e old nm Hf Hu Hl Hn | i e nm Hf].
  - exact A.
  - intros a e1 Ha A1.
    apply list_lookup_insert_Some in Ha as [(-> & <- & _) | (Hia & Ha)]; [|eapply A; eauto].
    simpl. pose proof (parse_uint_range sz). split; [lia | reflexivity].
  - apply list_find_Some in Hf as (Hi & (Hact & _) & _).
    intros a e1 Ha A1.
    apply list_lookup_insert_Some in Ha as [(-> & <- & _) | (Hia & Ha)]; [|eapply A; eauto].
    simpl. apply (A a e Hi Hact).
  - intros a e1 Ha A1.
    apply list_lookup_insert_Some in Ha as [(-> & <- & _) | (Hia & Ha)]; [|eapply A; eauto].
    exfalso. apply A1. reflexivity.
Qed.

(** In every reachable state the allocation of a record in use is the page
    rounding of its size: a multiple of 4096, the smallest one that holds
    the size when the size is at most 4294963200, and 0 above that. *)
Lemma reachable_alloc (st : kstate) (i : nat) (e : FsEntry) :
  reachable st -> g_dir st !! i = Some e -> active e ->
  page_multiple (alloc_bytes e) /\
  (size e <= 4294963200 -> smallest_page_multiple (size e) (alloc_bytes e)) /\
  (4294963200 < size e -> alloc_bytes e = 0).
Proof.
  intros R Hi Ha.
  assert (A : alloc_rounded (g_dir st)).
  { revert R. apply (reachable_invariant alloc_rounded).
    - intros raw _ j x Hj Hx. exfalso. apply Hx. eapply boot_all_free; eauto.
    - apply dir_step_alloc. }
  destruct (A i e Hi Ha) as [Hs ->].
  split; [apply round_up_page_multiple|].
  split; intros H.
  - apply round_up_page_smallest. lia.
  - apply round_up_page_wraps. lia.
Qed.

(** On any platform: a valid CREATE whose parsed size is above 4294963200
    asks [kmalloc] for 0 bytes and, when that returns an address, records
    the file with [alloc_bytes = 0]. *)
Lemma huge_create_on_any_platform (st : kstate) (nm sz : string) (i : nat) (d p : Z) (h : Heap) :
  nm <> EmptyString -> sz <> EmptyString -> strlen nm < MAX_NAME ->
  fs_find (g_dir st) nm < 0 -> 4294963200 < parse_uint sz ->
  lowest_free (g_dir st) i ->
  kmalloc 0 1 (heap st) = (d, p, h) -> d <> 0 ->
  round_up_page (parse_uint sz) = 0 /\
  cmd_create (Some nm) (Some sz) st = created i nm (parse_uint sz) d p h st /\
  g_dir (cmd_create (Some nm) (Some sz) st) !! i = Some (mkFsEntry nm (parse_uint sz) 0 d p 1).
Proof.
  intros Hn Hs Hl Hf Hp Hlow Hk Hd.
  pose proof (parse_uint_range sz) as Hr.
  assert (Hw : round_up_page (parse_uint sz) = 0) by (apply round_up_page_wraps; lia).
  assert (Hc : cmd_create (Some nm) (Some sz) st = created i nm (parse_uint sz) d p h st).
  { rewrite (cmd_create_valid st nm sz Hn Hs Hl Hf) by lia.
    rewrite (find_slot_lowest _ _ Hlow), Hw, Hk.
    assert (E : (Z.of_nat i <? 0) = false) by (apply Z.ltb_ge; lia). rewrite E.
    assert (E' : (d =? 0) = false) by (apply Z.eqb_neq; exact Hd). rewrite E'.
    rewrite Nat2Z.id. reflexivity. }
  split; [exact Hw|]. split; [exact Hc|].
  rewrite Hc. unfold created. fields. rewrite Hw.
  apply list_lookup_insert_eq.
  destruct Hlow as [(e & He & _) _]. apply lookup_lt_Some in He. exact He.
Qed.

End Properties.

(** ** The sample machine: evaluations and instances *)

Lemma after_snoc (lines : list string) (line : string) :
  after (lines ++ [line]) = @user_input sample line (after lines).
Proof. unfold after. rewrite fold_left_app. reflexivity. Qed.

Lemma after_reachable (lines : list string) : @reachable sample (after lines).
Proof.
  induction lines as [|line lines IH] using rev_ind.
  - apply (@reach_boot sample (replicate 16 junk) 65536 []). reflexivity.
  - rewrite after_snoc. apply reach_input. exact IH.
Qed.

Example round_up_page_10 : round_up_page 10 = 4096.
Proof. reflexivity. Qed.

Example round_up_page_4096 : round_up_page 4096 = 4096.
Proof. reflexivity. Qed.

Example round_up_page_4097 : round_up_page 4097 = 8192.
Proof. reflexivity. Qed.

Example parse_uint_wraps : parse_uint "4294967297" = 1.
Proof. reflexivity. Qed.

Example create_then_list :
  reply ["create foo 10"] "list"
  = ["FILES:" ++ nl; "  "; "FOO"; "  size="; "10"; "B alloc="; "4096"; "B v@";
     "0x00012000"; " p@"; "0x00012000"; nl; "> "]%string.
Proof. vm_compute. reflexivity. Qed.

(** C1: the size 4294967295 is accepted, [round_up_page] wraps around to 0,
    and the record of the new file has [alloc_bytes = 0], which is neither
    at least the size nor the smallest page multiple that holds it. *)
Theorem huge_create_allocates_nothing :
  parse_uint "4294967295" = 4294967295 /\
  round_up_page 4294967295 = 0 /\
  reply [] "CREATE BIG 4294967295" = [("OK" ++ nl)%string; "> "%string] /\
  g_dir (after ["CREATE BIG 4294967295"%string]) !! 0%nat
  = Some (mkFsEntry "BIG" 4294967295 0 73728 73728 1) /\
  ~ smallest_page_multiple 4294967295 0.
Proof.
  repeat split; try (vm_compute; reflexivity).
  intros (_ & H & _). lia.
Qed.

(** C6: for the line 'RENAME A B C' the second argument handed to
    [cmd_rename] is 'B C', the rest of the line, and the file is renamed to
    a name with a space in it, which no later DEL or RENAME can address. *)
Theorem second_argument_is_rest_of_line :
  tokens "RENAME A B C" = Some ("RENAME", Some "A", Some "B C")%string /\
  tokens "RENAME A B C" <> Some ("RENAME", Some "A", Some "B")%string /\
  name <$> g_dir (after ["CREATE A 10"; "RENAME A B C"]%string) !! 0%nat = Some "B C"%string /\
  reply ["CREATE A 10"; "RENAME A B C"]%string "DEL B C" = [("ERR: not found" ++ nl)%string; "> "%string] /\
  reply ["CREATE A 10"; "RENAME A B C"]%string "DEL B" = [("ERR: not found" ++ nl)%string; "> "%string].
Proof.
  repeat split; try (vm_compute; reflexivity).
  vm_compute. discriminate.
Qed.

(** DEL of a name that is not there, on the sample machine. *)
Lemma error_leaves_directory_unchanged_witness :
  reports_error [("ERR: not found" ++ nl)%string; "> "%string] = true /\
  g_dir (@user_input sample "DEL NOPE" booted) = g_dir booted.
Proof.
  split; [vm_compute; reflexivity|].
  apply (@error_leaves_directory_unchanged sample booted "DEL NOPE"
           [("ERR: not found" ++ nl)%string; "> "%string]).
  - vm_compute. reflexivity.
  - vm_compute. reflexivity.
Defined.

(** The sample machine after two CREATEs and a RENAME. *)
Lemma names_unique_when_reachable_witness :
  unique_names (g_dir (after ["create foo 10"; "create bar 20"; "rename foo baz"]%string)).
Proof.
  apply (@names_unique_when_reachable sample).
  apply after_reachable.
Defined.

(** 'del foo' and 'DEL FOO' after 'create foo 10' on the sample machine. *)
Lemma input_is_case_insensitive_witness :
  @user_input sample "del foo" (after ["create foo 10"%string])
  = @user_input sample "DEL FOO" (after ["create foo 10"%string]) /\
  names_upper (g_dir (after ["create foo 10"%string])).
Proof.
  destruct (@input_is_case_insensitive sample (after ["create foo 10"%string]) "del foo")
    as (H1 & _ & H3).
  split; [exact H1|].
  apply H3. apply after_reachable.
Defined.

(** 'end' on the sample machine, followed by two more lines. *)
Lemma end_halts_for_good_witness :
  screen (@step sample "end" booted) = screen booted ++ [("Stopping the CPU. Bye!" ++ nl)%string] /\
  @run sample ["LIST"; "CREATE A 1"]%string (@step sample "end" booted) = @step sample "end" booted.
Proof.
  destruct (@end_halts_for_good sample booted "end" ["LIST"; "CREATE A 1"]%string)
    as (H1 & _ & _ & _ & H5).
  - reflexivity.
  - reflexivity.
  - split; [exact H1 | exact H5].
Defined.

(** The lines ' END', 'END X' and 'page 1' on the sample machine. *)
Lemma keyword_must_be_whole_line_witness :
  @user_input sample " END" booted = kprint "> " (kprint ("Unknown command" ++ nl) booted) /\
  @user_input sample "END X" booted = kprint "> " (kprint ("Unknown command" ++ nl) booted) /\
  @user_input sample "page 1" booted = kprint "> " (kprint ("Unknown command" ++ nl) booted).
Proof.
  split; [|split].
  - apply (@keyword_must_be_whole_line sample booted " END" "END").
    + left. reflexivity.
    + vm_compute. reflexivity.
    + vm_compute. discriminate.
  - apply (@keyword_must_be_whole_line sample booted "END X" "END").
    + left. reflexivity.
    + vm_compute. reflexivity.
    + vm_compute. discriminate.
  - apply (@keyword_must_be_whole_line sample booted "page 1" "PAGE").
    + right. reflexivity.
    + vm_compute. reflexivity.
    + vm_compute. discriminate.
Defined.

(** C10, as stated, fails: the line 'LIST END' contains the keyword END and
    is not equal to it, and the answer is the listing, not
    'Unknown command'. *)
Lemma keyword_inside_line_counterexample :
  contains "END" (to_upper_inplace "LIST END") /\
  to_upper_inplace "LIST END" <> "END"%string /\
  reply [] "LIST END" = [("FILES:" ++ nl)%string; "> "%string] /\
  reply [] "LIST END" <> [("Unknown command" ++ nl)%string; "> "%string].
Proof.
  split; [exists "LIST "%string, EmptyString; reflexivity|].
  split; [vm_compute; discriminate|].
  split; [vm_compute; reflexivity|].
  vm_compute. discriminate.
Qed.

(** A name of 16 characters, for CREATE and as the new name of RENAME. *)
Lemma name_too_long_from_16_witness :
  @cmd_create sample (Some "ABCDEFGHIJKLMNOP"%string) (Some "10"%string) booted
  = kprint ("ERR: name too long" ++ nl) booted /\
  @cmd_rename sample (Some "A"%string) (Some "ABCDEFGHIJKLMNOP"%string) booted
  = kprint ("ERR: name too long" ++ nl) booted.
Proof.
  split.
  - destruct (@name_too_long_from_16 sample booted (Some "ABCDEFGHIJKLMNOP"%string) (Some "10"%string))
      as (_ & _ & H & _); [reflexivity | reflexivity |].
    apply H. vm_compute. discriminate.
  - destruct (@name_too_long_from_16 sample booted (Some "A"%string) (Some "ABCDEFGHIJKLMNOP"%string))
      as (_ & _ & _ & _ & H); [reflexivity | reflexivity |].
    apply H. vm_compute. discriminate.
Defined.

(** C4, as stated, fails: a name of 15 characters is accepted by CREATE and
    as the new name of RENAME, and the directory changes. *)
Lemma name_of_15_accepted_counterexample :
  strlen "ABCDEFGHIJKLMNO" = 15 /\
  reply [] "CREATE ABCDEFGHIJKLMNO 10" = [("OK" ++ nl)%string; "> "%string] /\
  name <$> g_dir (after ["CREATE ABCDEFGHIJKLMNO 10"%string]) !! 0%nat = Some "ABCDEFGHIJKLMNO"%string /\
  reply ["CREATE A 10"%string] "RENAME A ABCDEFGHIJKLMNO" = [("OK" ++ nl)%string; "> "%string] /\
  g_dir (after ["CREATE ABCDEFGHIJKLMNO 10"%string]) <> g_dir booted.
Proof.
  repeat split; try (vm_compute; reflexivity).
  vm_compute. discriminate.
Qed.

(** The size texts 'ABC' and '0' on the sample machine. *)
Lemma size_must_be_positive_witness :
  @cmd_create sample (Some "X"%string) (Some "ABC"%string) booted
  = kprint ("ERR: size must be > 0" ++ nl) booted /\
  @cmd_create sample (Some "X"%string) (Some "0"%string) booted
  = kprint ("ERR: size must be > 0" ++ nl) booted.
Proof.
  split.
  - destruct (@size_must_be_positive sample booted (Some "X"%string) (Some "ABC"%string))
      as (H & _); [reflexivity | reflexivity | reflexivity | reflexivity |].
    apply H. reflexivity.
  - destruct (@size_must_be_positive sample booted (Some "X"%string) (Some "0"%string))
      as (H & _); [reflexivity | reflexivity | reflexivity | reflexivity |].
    apply H. reflexivity.
Defined.

(** C5, as stated, fails: the size text '12ABC' is not a decimal integer
    and the CREATE succeeds with size 12; and a CREATE with size text '0'
    whose name is already active fails with 'exists', the check that comes
    first. *)
Lemma size_text_counterexample :
  reply [] "CREATE X 12abc" = [("OK" ++ nl)%string; "> "%string] /\
  size <$> g_dir (after ["CREATE X 12abc"%string]) !! 0%nat = Some 12 /\
  reply ["CREATE A 10"%string] "CREATE A 0" = [("ERR: exists" ++ nl)%string; "> "%string].
Proof. repeat split; vm_compute; reflexivity. Qed.

Lemma full_all_active (i : nat) (e : FsEntry) : g_dir full !! i = Some e -> active e.
Proof.
  assert (HF : Forall active (g_dir full)).
  { vm_compute. repeat (constructor; [discriminate|]). constructor. }
  intros H. eapply Forall_lookup_1; eauto.
Qed.

Lemma freed_lowest_free : lowest_free (g_dir freed) 3.
Proof.
  split.
  - eexists. split; vm_compute; reflexivity.
  - intros j e' Hlt Hj.
    destruct j as [|[|[|j]]]; [| | | lia];
      vm_compute in Hj; injection Hj as <-; discriminate.
Qed.

(** The seventeenth CREATE on the sample machine, and the CREATE after
    DEL F3, which reuses slot 3. *)
Lemma create_capacity_and_slot_order_witness :
  Z.of_nat (length (g_dir full)) = MAX_FILES /\
  @cmd_create sample (Some "G"%string) (Some "10"%string) full
  = kprint ("ERR: directory full" ++ nl) full /\
  @cmd_create sample (Some "G"%string) (Some "10"%string) freed
  = @created sample 3 "G" 10 204800 204800 208896 freed /\
  exists (i k : nat) (e : FsEntry),
    g_dir full !! k = Some e /\ name e = "F3"%string /\ active e /\ (i <= k)%nat /\
    lowest_free (g_dir freed) i /\
    @cmd_create sample (Some "G"%string) (Some "10"%string) freed
    = @created sample i "G" 10 204800 204800 208896 freed.
Proof.
  destruct (@create_capacity_and_slot_order sample full "G" "10") as (H1 & H2 & _ & _);
    [discriminate | discriminate | reflexivity | vm_compute; reflexivity
    | vm_compute; discriminate |].
  destruct (@create_capacity_and_slot_order sample freed "G" "10") as (_ & _ & H3 & H4);
    [discriminate | discriminate | reflexivity | vm_compute; reflexivity
    | vm_compute; discriminate |].
  split; [apply H1; apply after_reachable|].
  split; [apply H2; exact full_all_active|].
  split.
  - apply H3; [exact freed_lowest_free | vm_compute; reflexivity | discriminate].
  - apply (H4 full (Some "F3"%string) 204800 204800 208896).
    + vm_compute. reflexivity.
    + vm_compute. reflexivity.
    + vm_compute. reflexivity.
    + discriminate.
Defined.

(** ** Further properties: characters, tokens and numbers *)

Lemma upper_char_code (c : ascii) :
  code (upper_char c) = if is_lower c then code c - 32 else code c.
Proof. destruct c as [[] [] [] [] [] [] [] []]; reflexivity. Qed.

Lemma to_upper_inplace_get (s : string) (n : nat) :
  String.get n (to_upper_inplace s) = option_map upper_char (String.get n s).
Proof.
  revert n. induction s as [|c r IH]; intros n; simpl; [reflexivity|].
  destruct n as [|n]; [reflexivity | apply IH].
Qed.

(** X1: [to_upper_inplace] works in place: the length is kept, position [n]
    of the result depends on position [n] of the input only, a character
    between 'a' and 'z' loses 32 from its code ('a' becomes 'A') and every
    other character, digits, spaces and the codes above 127 included, is
    kept. *)
Theorem to_upper_inplace_pointwise (s : string) (n : nat) (c : ascii) :
  String.get n s = Some c ->
  String.length (to_upper_inplace s) = String.length s /\
  String.get n (to_upper_inplace s) = Some (upper_char c) /\
  code (upper_char c) = (if is_lower c then code c - 32 else code c) /\
  (is_lower c = false -> upper_char c = c).
Proof.
  intros H. split; [|split; [|split]].
  - clear. induction s as [|a r IH]; simpl; [reflexivity | rewrite IH; reflexivity].
  - rewrite to_upper_inplace_get, H. reflexivity.
  - apply upper_char_code.
  - apply upper_char_fixed.
Qed.

Lemma cut_token_split (p : string) :
  p = (fst (cut_token p) ++
       match snd (cut_token p) with
       | Some r => String " " r
       | None => EmptyString
       end)%string.
Proof.
  induction p as [|c r IH]; simpl; [reflexivity|].
  destruct (code c =? code " ") eqn:E.
  - simpl. f_equal.
    apply Z.eqb_eq in E. unfold code in E. apply N2Z.inj in E.
    rewrite <- (ascii_N_embedding c), E. reflexivity.
  - destruct (cut_token r) as [t q]. simpl in *. f_equal. exact IH.
Qed.

Lemma cut_token_none (p : string) :
  snd (cut_token p) = None <-> has_space p = false.
Proof.
  induction p as [|c r IH]; simpl; [split; reflexivity|].
  destruct (code c =? code " "); simpl; [split; discriminate|].
  destruct (cut_token r) as [t q]. simpl in *. exact IH.
Qed.

(** X2: [cut_token] splits the text at its first space: the token has no
    space in it, the text is the token, the space and the rest, and the
    returned pointer is NULL exactly when the text has no space at all; a
    rest that is empty (a space at the very end) is not NULL. *)
Theorem cut_token_at_first_space (p : string) :
  has_space (fst (cut_token p)) = false /\
  p = (fst (cut_token p) ++
       match snd (cut_token p) with
       | Some r => String " " r
       | None => EmptyString
       end)%string /\
  (snd (cut_token p) = None <-> has_space p = false) /\
  cut_token (p ++ " ") = (fst (cut_token p),
                          match snd (cut_token p) with
                          | Some r => Some (r ++ " ")%string
                          | None => Some EmptyString
                          end).
Proof.
  split; [apply cut_token_no_space|].
  split; [apply cut_token_split|].
  split; [apply cut_token_none|].
  induction p as [|c r IH]; simpl; [reflexivity|].
  destruct (code c =? code " "); [reflexivity|].
  rewrite IH. destruct (cut_token r) as [t [q|]]; reflexivity.
Qed.

Lemma skip_spaces_run (n : nat) (t : string) :
  no_leading_space t = true -> skip_spaces (spaces n ++ t) = t.
Proof.
  intros Ht. induction n as [|n IH]; simpl.
  - destruct t as [|c r]; [reflexivity|]. simpl in *.
    destruct (code c =? code " "); [discriminate | reflexivity].
  - exact IH.
Qed.

Lemma skip_spaces_shape (p : string) :
  exists n, p = (spaces n ++ skip_spaces p)%string /\ no_leading_space (skip_spaces p) = true.
Proof.
  induction p as [|c r IH]; simpl.
  - exists O. split; reflexivity.
  - destruct (code c =? code " ") eqn:E.
    + destruct IH as (n & Hp & Hs). exists (S n). split; [|exact Hs].
      simpl. apply Z.eqb_eq in E. unfold code in E. apply N2Z.inj in E.
      assert (Hc : c = " "%char).
      { rewrite <- (ascii_N_embedding c), E. reflexivity. }
      rewrite Hc. f_equal. exact Hp.
    + exists O. split; [reflexivity|]. simpl. rewrite E. reflexivity.
Qed.

(** X3: [next_token] removes a run of spaces and nothing else: the text is
    some spaces followed by the token it returns, which is not empty and
    does not begin with a space; it returns NULL exactly when the text is
    empty or all spaces, and for a NULL pointer. *)
Theorem next_token_skips_spaces_only (p : string) :
  next_token None = None /\
  exists n : nat,
    match next_token (Some p) with
    | Some t => p = (spaces n ++ t)%string /\ t <> EmptyString /\ no_leading_space t = true
    | None => p = spaces n
    end.
Proof.
  split; [reflexivity|].
  destruct (skip_spaces_shape p) as (n & Hp & Hs). exists n.
  unfold next_token. destruct (skip_spaces p) as [|c r] eqn:E.
  - rewrite Hp. clear. induction n as [|n IH]; simpl; [reflexivity | f_equal; exact IH].
  - split; [exact Hp|]. split; [discriminate | exact Hs].
Qed.

Lemma spaces_S_app (n : nat) (r : string) :
  (spaces (S n) ++ r)%string = String " " (spaces n ++ r).
Proof. reflexivity. Qed.

Lemma str_app_nil_r (s : string) : (s ++ EmptyString)%string = s.
Proof. induction s as [|c r IH]; simpl; [reflexivity | rewrite IH; reflexivity]. Qed.

Lemma cut_token_word (w r : string) :
  has_space w = false -> cut_token (w ++ String " " r) = (w, Some r).
Proof.
  intros H. induction w as [|c w IH]; simpl in *; [reflexivity|].
  apply orb_false_iff in H as [Hc Hw]. rewrite Hc, (IH Hw). reflexivity.
Qed.

Lemma cut_token_last (w : string) :
  has_space w = false -> cut_token w = (w, None).
Proof.
  intros H. induction w as [|c w IH]; simpl in *; [reflexivity|].
  apply orb_false_iff in H as [Hc Hw]. rewrite Hc, (IH Hw). reflexivity.
Qed.

Lemma word_no_leading_space (w rest : string) :
  w <> EmptyString -> has_space w = false -> no_leading_space (w ++ rest) = true.
Proof.
  destruct w as [|c w]; [congruence|]. simpl. intros _ H.
  apply orb_false_iff in H as [Hc _]. rewrite Hc. reflexivity.
Qed.

Lemma next_token_run (n : nat) (t : string) :
  t <> EmptyString -> no_leading_space t = true ->
  next_token (Some (spaces n ++ t)%string) = Some t.
Proof.
  intros Hne Ht. unfold next_token. rewrite (skip_spaces_run n t Ht).
  destruct t; [congruence | reflexivity].
Qed.

Lemma next_token_blank (n : nat) : next_token (Some (spaces n)) = None.
Proof.
  unfold next_token.
  assert (H : skip_spaces (spaces n) = EmptyString).
  { induction n as [|n IH]; simpl; [reflexivity | exact IH]. }
  rewrite H. reflexivity.
Qed.

(** X4: the parse of [user_input] finds the words of a line whatever the
    number of spaces around them: for words [c] and [a] without spaces and
    a second argument [b] that does not begin with a space, a line made of
    [c], [a] and [b] separated by runs of one or more spaces parses as
    [(c, a, b)]; with only spaces after [a] the second argument is NULL, and
    with only spaces after [c] both arguments are. *)
Theorem tokens_of_spaced_line (c a b : string) (i j k : nat) :
  c <> EmptyString -> has_space c = false ->
  a <> EmptyString -> has_space a = false ->
  b <> EmptyString -> no_leading_space b = true ->
  tokens (spaces i ++ c ++ spaces (S j) ++ a ++ spaces (S k) ++ b)
  = Some (c, Some a, Some b) /\
  tokens (spaces i ++ c ++ spaces (S j) ++ a ++ spaces k) = Some (c, Some a, None) /\
  tokens (spaces i ++ c ++ spaces j) = Some (c, None, None).
Proof.
  intros Hc Hcs Ha Has Hb Hbs.
  assert (Hblank : forall n, tokens (spaces i ++ c ++ spaces n) = Some (c, None, None)).
  { intros n. unfold tokens.
    rewrite next_token_run; [|destruct c; [congruence | discriminate]
                             |apply word_no_leading_space; assumption].
    destruct n as [|n].
    - simpl spaces. rewrite str_app_nil_r, (cut_token_last c Hcs). reflexivity.
    - simpl spaces. rewrite (cut_token_word c _ Hcs).
      rewrite next_token_blank. rewrite next_token_blank. reflexivity. }
  assert (Hargs : forall rest,
             tokens (spaces i ++ c ++ spaces (S j) ++ a ++ rest)
             = match cut_token (a ++ rest) with
               | (t, q) => Some (c, Some t, next_token q)
               end).
  { intros rest. unfold tokens.
    rewrite next_token_run; [|destruct c; [congruence | discriminate]
                             |apply word_no_leading_space; assumption].
    rewrite spaces_S_app, (cut_token_word c _ Hcs).
    rewrite next_token_run; [|destruct a; [congruence | discriminate]
                             |apply word_no_leading_space; assumption].
    destruct (cut_token (a ++ rest)) as [t q]. reflexivity. }
  split; [|split].
  - rewrite Hargs, spaces_S_app, (cut_token_word a _ Has).
    rewrite next_token_run by assumption. reflexivity.
  - rewrite Hargs. destruct k as [|k].
    + simpl spaces. rewrite str_app_nil_r, (cut_token_last a Has). reflexivity.
    + simpl spaces. rewrite (cut_token_word a _ Has).
      rewrite next_token_blank. reflexivity.
  - apply Hblank.
Qed.

Lemma str_take_length (n : nat) (s : string) :
  String.length (str_take n s) = Nat.min n (String.length s).
Proof.
  revert s. induction n as [|n IH]; intros [|c r]; simpl; try reflexivity.
  rewrite IH. reflexivity.
Qed.

Lemma str_take_prefix (n : nat) (s : string) : begins_with (str_take n s) s.
Proof.
  revert s. induction n as [|n IH]; intros [|c r]; simpl.
  - exists EmptyString. reflexivity.
  - exists (String c r). reflexivity.
  - exists EmptyString. reflexivity.
  - destruct (IH r) as [rest Hr]. exists rest. simpl. f_equal. exact Hr.
Qed.

(** X5: [copy_bounded] never writes past the buffer: with [maxlen > 0] the
    copied text begins the source, has at most [maxlen - 1] characters (so
    the terminator fits), is the whole source when that is short enough and
    is empty for a NULL source; with [maxlen <= 0] the destination is left
    as it is. *)
Theorem copy_bounded_fits (dst s : string) (maxlen : Z) :
  0 < maxlen ->
  strlen (copy_bounded dst (Some s) maxlen) = Z.min (maxlen - 1) (strlen s) /\
  strlen (copy_bounded dst (Some s) maxlen) < maxlen /\
  begins_with (copy_bounded dst (Some s) maxlen) s /\
  (strlen s < maxlen -> copy_bounded dst (Some s) maxlen = s) /\
  copy_bounded dst None maxlen = EmptyString /\
  (forall m : Z, m <= 0 -> copy_bounded dst (Some s) m = dst).
Proof.
  intros Hm. unfold copy_bounded, strlen.
  assert (E : (maxlen <=? 0) = false) by lia. rewrite E.
  rewrite str_take_length.
  split; [lia|]. split; [lia|].
  split; [apply str_take_prefix|].
  split; [intros H; apply str_take_all; lia|].
  split; [reflexivity|].
  intros m Hle. assert (E' : (m <=? 0) = true) by lia. rewrite E'. reflexivity.
Qed.

(** *** Decimal text *)

Lemma digit_char (d : Z) :
  0 <= d < 10 ->
  is_digit (chr (code "0" + d)) = true /\ code (chr (code "0" + d)) - code "0" = d.
Proof.
  intros H.
  assert (D : d = 0 \/ d = 1 \/ d = 2 \/ d = 3 \/ d = 4 \/ d = 5 \/ d = 6 \/ d = 7 \/
              d = 8 \/ d = 9) by lia.
  repeat (destruct D as [-> | D]; [split; reflexivity|]). subst d. split; reflexivity.
Qed.

Lemma dec_value_app (x : Z) (s1 s2 : string) :
  dec_value x (s1 ++ s2) = dec_value (dec_value x s1) s2.
Proof.
  revert x. induction s1 as [|c r IH]; intros x; simpl; [reflexivity | apply IH].
Qed.

Lemma all_digits_app (s1 s2 : string) :
  all_digits (s1 ++ s2) = all_digits s1 && all_digits s2.
Proof.
  induction s1 as [|c r IH]; simpl; [reflexivity|].
  rewrite IH, andb_assoc. reflexivity.
Qed.

Lemma str_app_assoc (a b c : string) : ((a ++ b) ++ c)%string = (a ++ (b ++ c))%string.
Proof. induction a as [|x a IH]; simpl; [reflexivity | rewrite IH; reflexivity]. Qed.

Lemma str_app_length (a b : string) :
  String.length (a ++ b) = (String.length a + String.length b)%nat.
Proof. induction a as [|x a IH]; simpl; [reflexivity | rewrite IH; reflexivity]. Qed.

Lemma dec_digits_acc (fuel : nat) (v : Z) (acc : string) :
  dec_digits fuel v acc = (dec_digits fuel v EmptyString ++ acc)%string.
Proof.
  revert v acc. induction fuel as [|f IH]; intros v acc; simpl; [reflexivity|].
  destruct (v =? 0); [reflexivity|].
  rewrite (IH (v / 10) (String _ acc)), (IH (v / 10) (String _ EmptyString)).
  rewrite str_app_assoc. reflexivity.
Qed.

Lemma dec_digits_length (fuel : nat) (v : Z) :
  (String.length (dec_digits fuel v EmptyString) <= fuel)%nat.
Proof.
  revert v. induction fuel as [|f IH]; intros v; simpl; [lia|].
  destruct (v =? 0); [simpl; lia|].
  rewrite dec_digits_acc, str_app_length. simpl. specialize (IH (v / 10)). lia.
Qed.

(** The digits that [dec_digits] leaves in the buffer: only digits, the
    value of [v] when the fuel is enough, and no digit at all only for 0. *)
Lemma dec_digits_value (fuel : nat) (v : Z) :
  0 <= v < 10 ^ Z.of_nat fuel ->
  all_digits (dec_digits fuel v EmptyString) = true /\
  dec_value 0 (dec_digits fuel v EmptyString) = v /\
  (0 < v -> exists c r, dec_digits fuel v EmptyString = String c r /\ c <> "0"%char).
Proof.
  revert v. induction fuel as [|f IH]; intros v Hv.
  - simpl in *. assert (v = 0) by lia. subst v. repeat split. lia.
  - simpl. destruct (v =? 0) eqn:E.
    + apply Z.eqb_eq in E. subst v. repeat split. lia.
    + apply Z.eqb_neq in E.
      assert (Hq : 0 <= v / 10 < 10 ^ Z.of_nat f).
      { rewrite Nat2Z.inj_succ, Z.pow_succ_r in Hv by lia.
        split; [apply Z.div_pos; lia | apply Z.div_lt_upper_bound; lia]. }
      destruct (IH (v / 10) Hq) as (Hd & Hval & Hlead).
      pose proof (Z.mod_pos_bound v 10 ltac:(lia)) as Hm.
      destruct (digit_char (v mod 10) Hm) as (Hc1 & Hc2).
      rewrite dec_digits_acc. split; [|split].
      * rewrite all_digits_app, Hd. simpl. rewrite Hc1. reflexivity.
      * rewrite dec_value_app, Hval. simpl. rewrite Hc2.
        pose proof (Z.div_mod v 10 ltac:(lia)). lia.
      * intros _. destruct (Z.eq_dec (v / 10) 0) as [Hz | Hnz].
        -- rewrite Hz. assert (Hd0 : dec_digits f 0 EmptyString = EmptyString).
           { destruct f; reflexivity. }
           rewrite Hd0. simpl. eexists _, _. split; [reflexivity|].
           intros Hc. rewrite Hc in Hc2. simpl in Hc2.
           pose proof (Z.div_mod v 10 ltac:(lia)). lia.
        -- destruct Hlead as (c & r & Hs & Hc); [lia|].
           rewrite Hs. simpl. eexists _, _. split; [reflexivity | exact Hc].
Qed.

Lemma wrap32_step (x d : Z) : wrap32 (wrap32 x * 10 + d) = wrap32 (x * 10 + d).
Proof.
  unfold wrap32.
  rewrite <- Z.add_mod_idemp_l by lia.
  rewrite Z.mul_mod_idemp_l by lia.
  rewrite Z.add_mod_idemp_l by lia. reflexivity.
Qed.

(** The loop of [parse_uint] on a run of digits followed by something that is
    not a digit: the value of the digits modulo 2^32. *)
Lemma parse_digits_run (s rest : string) (x : Z) (any : bool) :
  all_digits s = true -> leading_digit_free rest ->
  parse_digits (s ++ rest) (wrap32 x) any
  = (wrap32 (dec_value x s), any || negb (is_empty s)).
Proof.
  intros Hs Hr. revert x any. induction s as [|c r IH]; intros x any; simpl.
  - rewrite orb_false_r. destruct rest as [|c r]; [reflexivity|].
    simpl in Hr. simpl. rewrite Hr. reflexivity.
  - simpl in Hs. apply andb_true_iff in Hs as [Hc Hrest]. rewrite Hc.
    rewrite wrap32_step, (IH Hrest). rewrite orb_true_r. reflexivity.
Qed.

Lemma digit_not_space (c : ascii) : is_digit c = true -> (code c =? code " ") = false.
Proof.
  unfold is_digit. intros H. apply andb_true_iff in H as [H1 H2].
  apply Z.leb_le in H1. apply Z.eqb_neq. change (code " ") with 32.
  change (code "0") with 48 in H1. lia.
Qed.

Lemma parse_uint_run (n : nat) (s rest : string) :
  all_digits s = true -> s <> EmptyString -> leading_digit_free rest ->
  parse_uint (spaces n ++ s ++ rest) = wrap32 (dec_value 0 s).
Proof.
  intros Hd Hne Hr. unfold parse_uint.
  assert (Hs : skip_spaces (spaces n ++ s ++ rest) = (s ++ rest)%string).
  { apply skip_spaces_run. destruct s as [|c r]; [congruence|]. simpl in *.
    apply andb_true_iff in Hd as [Hc _]. rewrite (digit_not_space c Hc). reflexivity. }
  rewrite Hs. change 0 with (wrap32 0) at 1.
  rewrite (parse_digits_run s rest 0 false Hd Hr).
  destruct s; [congruence | reflexivity].
Qed.

Lemma dec_digits_fuel (f k : nat) (v : Z) (acc : string) :
  0 <= v < 10 ^ Z.of_nat f -> dec_digits (f + k) v acc = dec_digits f v acc.
Proof.
  revert v acc. induction f as [|f IH]; intros v acc Hv.
  - simpl in Hv. assert (v = 0) by lia. subst v. destruct k; reflexivity.
  - simpl. destruct (v =? 0) eqn:E; [reflexivity|].
    apply Z.eqb_neq in E. apply IH.
    rewrite Nat2Z.inj_succ, Z.pow_succ_r in Hv by lia.
    split; [apply Z.div_pos; lia | apply Z.div_lt_upper_bound; lia].
Qed.

Lemma dec_to_ascii_digits (v : Z) :
  0 <= v < 10 ^ 15 ->
  all_digits (dec_to_ascii v) = true /\ dec_to_ascii v <> EmptyString /\
  dec_value 0 (dec_to_ascii v) = v.
Proof.
  intros Hv. unfold dec_to_ascii. destruct (v =? 0) eqn:E.
  - apply Z.eqb_eq in E. subst v. repeat split. discriminate.
  - apply Z.eqb_neq in E.
    destruct (dec_digits_value 15 v Hv) as (Hd & Hval & Hlead).
    split; [exact Hd|]. split; [|exact Hval].
    destruct Hlead as (c & r & Hs & _); [lia|]. rewrite Hs. discriminate.
Qed.

(** X6: decimal round trip: for every 32-bit value [v], [parse_uint] reads
    back [v] from the text that [dec_to_ascii] writes for it, also when the
    text comes after spaces and is followed by anything that does not begin
    with a digit. *)
Theorem parse_uint_of_dec_to_ascii (v : Z) (n : nat) (rest : string) :
  0 <= v < 2 ^ 32 -> leading_digit_free rest ->
  parse_uint (dec_to_ascii v) = v /\
  parse_uint (spaces n ++ dec_to_ascii v ++ rest) = v.
Proof.
  intros Hv Hr.
  destruct (dec_to_ascii_digits v ltac:(lia)) as (Hd & Hne & Hval).
  assert (Hw : wrap32 v = v) by (unfold wrap32; apply Z.mod_small; exact Hv).
  split.
  - pose proof (parse_uint_run 0 (dec_to_ascii v) EmptyString Hd Hne I) as H.
    simpl spaces in H. simpl append in H. rewrite str_app_nil_r in H.
    rewrite H, Hval. exact Hw.
  - rewrite (parse_uint_run n (dec_to_ascii v) rest Hd Hne Hr), Hval. exact Hw.
Qed.

(** X7: the text of [dec_to_ascii] fits its 16-byte buffer: at most 15
    characters for any value.  For a 32-bit value it is the decimal notation
    of the value: one to ten digits, nothing but digits, no leading zero
    except for the value 0 itself, which gives the text '0'. *)
Theorem dec_to_ascii_is_decimal (v : Z) :
  0 <= v < 2 ^ 32 ->
  (forall w : Z, strlen (dec_to_ascii w) <= 15) /\
  1 <= strlen (dec_to_ascii v) <= 10 /\
  all_digits (dec_to_ascii v) = true /\
  dec_value 0 (dec_to_ascii v) = v /\
  (dec_to_ascii v = "0"%string <-> v = 0) /\
  (v <> 0 -> exists c r, dec_to_ascii v = String c r /\ c <> "0"%char).
Proof.
  intros Hv.
  destruct (dec_to_ascii_digits v ltac:(lia)) as (Hd & Hne & Hval).
  split.
  { intros w. unfold dec_to_ascii, strlen. destruct (w =? 0); [simpl; lia|].
    pose proof (dec_digits_length 15 w). lia. }
  split.
  { unfold strlen. split.
    - destruct (dec_to_ascii v); [congruence | simpl; lia].
    - unfold dec_to_ascii. destruct (v =? 0); [simpl; lia|].
      change (dec_digits 15 v EmptyString) with (dec_digits (10 + 5) v EmptyString).
      rewrite (dec_digits_fuel 10 5 v EmptyString) by (simpl; lia).
      pose proof (dec_digits_length 10 v). lia. }
  split; [exact Hd|]. split; [exact Hval|].
  assert (Hlead : v <> 0 -> exists c r, dec_to_ascii v = String c r /\ c <> "0"%char).
  { intros Hnz. unfold dec_to_ascii.
    assert (E : (v =? 0) = false) by lia. rewrite E.
    apply (dec_digits_value 15 v); lia. }
  split; [|exact Hlead].
  split.
  - intros Hz. destruct (Z.eq_dec v 0) as [H0 | Hnz]; [exact H0|].
    destruct (Hlead Hnz) as (c & r & Hs & Hc). rewrite Hs in Hz.
    injection Hz as Hc' _. contradiction.
  - intros ->. reflexivity.
Qed.

(** X8: [parse_uint] reads the run of digits at the start of the text,
    after any leading spaces, and ignores whatever follows it: the result is
    the value of that run modulo 2^32, always in the 32-bit range; a text
    that has no digit after its leading spaces gives 0. *)
Theorem parse_uint_reads_leading_digits (n : nat) (s rest : string) :
  all_digits s = true -> s <> EmptyString -> leading_digit_free rest ->
  parse_uint (spaces n ++ s ++ rest) = dec_value 0 s mod 2 ^ 32 /\
  0 <= parse_uint (spaces n ++ s ++ rest) < 2 ^ 32 /\
  (0 <= dec_value 0 s < 2 ^ 32 -> parse_uint (spaces n ++ s ++ rest) = dec_value 0 s) /\
  (forall t : string, leading_digit t = false -> parse_uint t = 0).
Proof.
  intros Hd Hne Hr.
  pose proof (parse_uint_run n s rest Hd Hne Hr) as Hmain. unfold wrap32 in Hmain.
  split; [exact Hmain|]. split; [apply parse_uint_range|].
  split; [|apply parse_uint_no_digit].
  intros Hv. rewrite Hmain. apply Z.mod_small. exact Hv.
Qed.

(** X9: up to 4294963200 bytes [round_up_page] is the ceiling to the page
    size: the result is the smallest multiple of 4096 that is at least the
    request, less than one page above it, equal to the request when that is
    already a multiple, unchanged by a second rounding, and it grows with
    the request. *)
Theorem round_up_page_is_ceiling (n m : Z) :
  0 <= n <= m -> m <= 4294963200 ->
  smallest_page_multiple n (round_up_page n) /\
  n <= round_up_page n < n + 4096 /\
  round_up_page n = 4096 * ((n + 4095) / 4096) /\
  (n mod 4096 = 0 -> round_up_page n = n) /\
  round_up_page (round_up_page n) = round_up_page n /\
  round_up_page n <= round_up_page m.
Proof.
  intros Hn Hm.
  assert (Hdiv : forall x, 0 <= x <= 4294963200 -> round_up_page x = 4096 * ((x + 4095) / 4096)).
  { intros x Hx. rewrite round_up_page_div. unfold wrap32.
    rewrite Z.mod_small by lia. f_equal. f_equal. lia. }
  pose proof (Z.div_mod (n + 4095) 4096 ltac:(lia)) as Hdm.
  pose proof (Z.mod_pos_bound (n + 4095) 4096 ltac:(lia)) as Hmb.
  assert (Hb : n <= round_up_page n < n + 4096) by (rewrite (Hdiv n) by lia; lia).
  split.
  { rewrite (Hdiv n) by lia. split; [eexists; reflexivity|]. split; [lia|].
    intros m' [k ->] Hle.
    assert (Hk : (n + 4095) / 4096 < k + 1) by (apply Z.div_lt_upper_bound; lia). lia. }
  split; [exact Hb|]. split; [apply Hdiv; lia|].
  assert (Hfix : forall x, 0 <= x <= 4294963200 -> x mod 4096 = 0 -> round_up_page x = x).
  { intros x Hx Hx0. rewrite (Hdiv x Hx).
    pose proof (Z.div_mod x 4096 ltac:(lia)) as Hxd. rewrite Hx0 in Hxd.
    replace (x + 4095) with (x / 4096 * 4096 + 4095) by lia.
    rewrite Z.div_add_l by lia. change (4095 / 4096) with 0. lia. }
  split; [apply Hfix; lia|].
  split.
  - apply Hfix.
    + rewrite (Hdiv n) by lia.
      assert ((n + 4095) / 4096 <= 1048575).
      { apply Z.lt_succ_r. apply Z.div_lt_upper_bound; lia. }
      split; [|lia]. assert (0 <= (n + 4095) / 4096) by (apply Z.div_pos; lia). lia.
    + rewrite (Hdiv n) by lia. rewrite Z.mul_comm. apply Z.mod_mul. lia.
  - rewrite (Hdiv n), (Hdiv m) by lia.
    assert ((n + 4095) / 4096 <= (m + 4095) / 4096) by (apply Z.div_le_mono; lia). lia.
Qed.

(** ** Further properties: the directory and the dispatcher *)

Section Further.
Context {PF : Platform}.

Create Rewrite HintDb kfields.

#[local] Hint Rewrite @seq_apply
  @g_dir_kprint @g_dir_phys_kprint @heap_kprint @halted_kprint @screen_kprint
  @g_dir_set_heap @g_dir_phys_set_heap @heap_set_heap @halted_set_heap @screen_set_heap
  @g_dir_set_dir @g_dir_phys_set_dir @heap_set_dir @halted_set_dir @screen_set_dir
  @g_dir_set_dir_phys @heap_set_dir_phys @halted_set_dir_phys @screen_set_dir_phys
  @g_dir_hlt @heap_hlt @halted_hlt @screen_hlt : kfields.

Ltac fields := autorewrite with kfields.
Ltac split_ifs := repeat case_match.
Ltac other_message H :=
  revert H; fields; intros H; apply app_inv_head in H; vm_compute in H; discriminate H.

(** X10: [fs_find] returns the index of the first slot that is in use under
    the name, and -1 exactly when no slot in use has the name; a free slot
    is never found, whatever name is left in it, and the result is -1 or an
    index of the table. *)
Theorem fs_find_first_active (dir : list FsEntry) (nm : string) (i : nat) (e : FsEntry) :
  dir !! i = Some e ->
  (fs_find dir nm = Z.of_nat i <->
   (active e /\ name e = nm /\
    forall (j : nat) (y : FsEntry), (j < i)%nat -> dir !! j = Some y ->
                                    ~ (active y /\ name y = nm))) /\
  (fs_find dir nm = -1 <->
   forall (j : nat) (y : FsEntry), dir !! j = Some y -> ~ (active y /\ name y = nm)) /\
  (fs_find dir nm = -1 \/ 0 <= fs_find dir nm < Z.of_nat (length dir)) /\
  (used e = 0 -> fs_find dir nm <> Z.of_nat i).
Proof.
  intros Hi.
  assert (Hholds : forall y, holds_name nm y <-> (active y /\ name y = nm)).
  { intros y. unfold holds_name, active. rewrite strcmp_eq. reflexivity. }
  assert (Hsome : fs_find dir nm = Z.of_nat i <->
                  (active e /\ name e = nm /\
                   forall j y, (j < i)%nat -> dir !! j = Some y -> ~ (active y /\ name y = nm))).
  { unfold fs_find. split.
    - destruct (list_find (holds_name nm) dir) as [[k x]|] eqn:E; [|lia].
      intros Hk. apply Nat2Z.inj in Hk. subst k.
      apply list_find_Some in E as (Hx & Hp & Hlow).
      rewrite Hi in Hx. injection Hx as <-.
      apply Hholds in Hp as [Ha Hn]. repeat split; try assumption.
      intros j y Hlt Hj Hy. apply (Hlow j y Hj Hlt). apply Hholds. exact Hy.
    - intros (Ha & Hn & Hlow).
      assert (E : list_find (holds_name nm) dir = Some (i, e)).
      { apply list_find_Some. split; [exact Hi|]. split; [apply Hholds; split; assumption|].
        intros j y Hj Hlt Hy. apply (Hlow j y Hlt Hj). apply Hholds. exact Hy. }
      rewrite E. reflexivity. }
  split; [exact Hsome|]. split; [|split].
  - unfold fs_find. split.
    + destruct (list_find (holds_name nm) dir) as [[k x]|] eqn:E; [lia|].
      intros _ j y Hj Hy. apply list_find_None in E. rewrite Forall_lookup in E.
      apply (E j y Hj). apply Hholds. exact Hy.
    + intros Hnone. destruct (list_find (holds_name nm) dir) as [[k x]|] eqn:E; [|reflexivity].
      exfalso. apply list_find_Some in E as (Hx & Hp & _).
      apply (Hnone k x Hx). apply Hholds. exact Hp.
  - apply fs_find_range.
  - intros Hfree Hf. apply Hsome in Hf as (Ha & _). apply Ha. exact Hfree.
Qed.

(** *** What a successful command has done *)

Lemma cmd_create_ok (nm sz : option string) (st : kstate) :
  screen (cmd_create nm sz st) = screen st ++ [("OK" ++ nl)%string] ->
  exists (i : nat) (d p : Z) (h : Heap),
    missing nm = false /\ missing sz = false /\ strlen (arg nm) < MAX_NAME /\
    fs_find (g_dir st) (arg nm) < 0 /\ parse_uint (arg sz) <> 0 /\
    lowest_free (g_dir st) i /\
    kmalloc (round_up_page (parse_uint (arg sz))) 1 (heap st) = (d, p, h) /\ d <> 0 /\
    cmd_create nm sz st = created i (arg nm) (parse_uint (arg sz)) d p h st.
Proof.
  destruct (missing nm) eqn:Em1.
  { unfold cmd_create. rewrite Em1. simpl orb. cbv iota. intros H. other_message H. }
  destruct (missing sz) eqn:Em2.
  { unfold cmd_create. rewrite Em1, Em2. simpl orb. cbv iota. intros H. other_message H. }
  destruct (missing_false nm Em1) as (n & -> & Hn).
  destruct (missing_false sz Em2) as (z & -> & Hz).
  simpl arg.
  destruct (Z_lt_le_dec (strlen n) MAX_NAME) as [Hl | Hl].
  2:{ unfold cmd_create. rewrite Em1, Em2. simpl orb. cbv iota. simpl arg.
      assert (E : (strlen n >=? MAX_NAME) = true) by lia. rewrite E.
      intros H. other_message H. }
  destruct (Z_lt_le_dec (fs_find (g_dir st) n) 0) as [Hf | Hf].
  2:{ unfold cmd_create. rewrite Em1, Em2. simpl orb. cbv iota. simpl arg.
      assert (E : (strlen n >=? MAX_NAME) = false) by lia. rewrite E.
      assert (E' : (fs_find (g_dir st) n >=? 0) = true) by lia. rewrite E'.
      intros H. other_message H. }
  destruct (Z.eq_dec (parse_uint z) 0) as [Hp | Hp].
  { unfold cmd_create. rewrite Em1, Em2. simpl orb. cbv iota. simpl arg.
    assert (E : (strlen n >=? MAX_NAME) = false) by lia. rewrite E.
    assert (E' : (fs_find (g_dir st) n >=? 0) = false) by lia. rewrite E'.
    rewrite Hp. simpl Z.eqb. cbv iota.
    intros H. other_message H. }
  rewrite (cmd_create_valid st n z Hn Hz Hl Hf Hp).
  destruct (find_slot (g_dir st) <? 0) eqn:Es.
  { intros H. other_message H. }
  destruct (kmalloc (round_up_page (parse_uint z)) 1 (heap st)) as [[d p] h] eqn:Ek.
  destruct (d =? 0) eqn:Ed.
  { intros H. other_message H. }
  intros _. exists (Z.to_nat (find_slot (g_dir st))), d, p, h.
  repeat split; try assumption; try reflexivity.
  - apply find_slot_is_lowest. lia.
  - apply find_slot_is_lowest. lia.
  - apply Z.eqb_neq. exact Ed.
Qed.

Lemma cmd_rename_ok (oldn newn : option string) (st : kstate) :
  screen (cmd_rename oldn newn st) = screen st ++ [("OK" ++ nl)%string] ->
  exists (k : nat) (e : FsEntry),
    missing oldn = false /\ missing newn = false /\ strlen (arg newn) < MAX_NAME /\
    list_find (holds_name (arg oldn)) (g_dir st) = Some (k, e) /\
    fs_find (g_dir st) (arg newn) < 0 /\
    cmd_rename oldn newn st
    = kprint ("OK" ++ nl)
        (set_dir (<[k := mkFsEntry (arg newn) (size e) (alloc_bytes e) (data e) (phys e) (used e)]>
                    (g_dir st)) st).
Proof.
  unfold cmd_rename.
  destruct (missing oldn || missing newn) eqn:Em.
  { intros H. other_message H. }
  apply orb_false_iff in Em as [Em1 Em2].
  destruct (strlen (arg newn) >=? MAX_NAME) eqn:El.
  { intros H. other_message H. }
  destruct (fs_find (g_dir st) (arg oldn) <? 0) eqn:Ei.
  { intros H. other_message H. }
  destruct (fs_find (g_dir st) (arg newn) >=? 0) eqn:Ef.
  { intros H. other_message H. }
  intros _.
  destruct (fs_find_some (g_dir st) (arg oldn)) as (k & e & Hfind & ->); [lia|].
  rewrite Nat2Z.id. exists k, e.
  pose proof Hfind as Hl. apply list_find_Some in Hl as (Hl & _).
  destruct (missing_false newn Em2) as (n & -> & _). simpl arg in *.
  repeat split; try assumption; try lia.
  rewrite (alter_as_insert _ _ _ _ Hl). unfold rename_entry.
  rewrite copy_bounded_short by lia. reflexivity.
Qed.

Lemma in_use_insert (dir : list FsEntry) (i : nat) (e x : FsEntry) :
  dir !! i = Some e ->
  in_use (<[i := x]> dir)
  = in_use dir - (if used e =? 0 then 0 else 1) + (if used x =? 0 then 0 else 1).
Proof.
  revert i. induction dir as [|a dir IH]; intros i Hi; [discriminate|].
  destruct i as [|i]; simpl in *.
  - injection Hi as ->. lia.
  - rewrite (IH i Hi). lia.
Qed.

Lemma in_use_bounds (dir : list FsEntry) : 0 <= in_use dir <= Z.of_nat (length dir).
Proof.
  induction dir as [|a dir IH]; simpl; [lia|].
  destruct (used a =? 0); lia.
Qed.

Lemma cmd_del_done (nm : option string) (st : kstate) :
  screen (cmd_del nm st) = screen st ++ [("OK" ++ nl)%string] ->
  exists (k : nat) (e : FsEntry),
    missing nm = false /\
    list_find (holds_name (arg nm)) (g_dir st) = Some (k, e) /\
    cmd_del nm st
    = kprint ("OK" ++ nl) (set_dir (<[k := mkFsEntry EmptyString 0 0 0 0 0]> (g_dir st)) st).
Proof.
  unfold cmd_del.
  destruct (missing nm) eqn:Em.
  { intros H. other_message H. }
  destruct (fs_find (g_dir st) (arg nm) <? 0) eqn:Ei.
  { intros H. other_message H. }
  intros _.
  destruct (fs_find_some (g_dir st) (arg nm)) as (k & e & Hfind & ->); [lia|].
  rewrite Nat2Z.id. exists k, e.
  pose proof Hfind as Hl. apply list_find_Some in Hl as (Hl & _).
  repeat split; try assumption.
  rewrite (alter_as_insert _ _ _ _ Hl). reflexivity.
Qed.

Lemma fs_find_of_list_find (dir : list FsEntry) (nm : string) (k : nat) (e : FsEntry) :
  list_find (holds_name nm) dir = Some (k, e) -> fs_find dir nm = Z.of_nat k.
Proof. intros H. unfold fs_find. rewrite H. reflexivity. Qed.

Lemma fs_find_minus_one (dir : list FsEntry) (nm : string) :
  (forall (j : nat) (y : FsEntry), dir !! j = Some y -> ~ holds_name nm y) ->
  fs_find dir nm = -1.
Proof.
  intros H. unfold fs_find.
  assert (E : list_find (holds_name nm) dir = None).
  { apply list_find_None. apply Forall_lookup. exact H. }
  rewrite E. reflexivity.
Qed.

Lemma holds_name_iff (nm : string) (y : FsEntry) :
  holds_name nm y <-> (active y /\ name y = nm).
Proof. unfold holds_name, active. rewrite strcmp_eq. reflexivity. Qed.

(** X11: a CREATE that answers OK has filled the free slot of lowest index
    and nothing else: that slot holds the name, the parsed size, its page
    rounding, the addresses that [kmalloc] returned and [used = 1]; every
    other slot is as before; [fs_find] now returns that slot for the name;
    one more slot is in use; and the heap is the one [kmalloc] left, with
    the new region zero-filled. *)
Theorem create_then_find (nm sz : option string) (st : kstate) :
  screen (cmd_create nm sz st) = screen st ++ [("OK" ++ nl)%string] ->
  exists (i : nat) (d p : Z) (h : Heap),
    lowest_free (g_dir st) i /\
    kmalloc (round_up_page (parse_uint (arg sz))) 1 (heap st) = (d, p, h) /\
    g_dir (cmd_create nm sz st) !! i
    = Some (mkFsEntry (arg nm) (parse_uint (arg sz))
                      (round_up_page (parse_uint (arg sz))) d p 1) /\
    (forall j : nat, j <> i -> g_dir (cmd_create nm sz st) !! j = g_dir st !! j) /\
    fs_find (g_dir (cmd_create nm sz st)) (arg nm) = Z.of_nat i /\
    in_use (g_dir (cmd_create nm sz st)) = in_use (g_dir st) + 1 /\
    heap (cmd_create nm sz st) = memory_set d 0 (round_up_page (parse_uint (arg sz))) h.
Proof.
  intros Hok.
  destruct (cmd_create_ok nm sz st Hok)
    as (i & d & p & h & _ & _ & _ & Hf & _ & Hlow & Hk & _ & ->).
  exists i, d, p, h.
  destruct Hlow as [(e & Hi & He) Hbefore].
  assert (Hlt : (i < length (g_dir st))%nat) by (apply lookup_lt_Some in Hi; exact Hi).
  unfold created. fields.
  split; [split; [exists e; split; assumption | exact Hbefore]|].
  split; [exact Hk|].
  split; [apply list_lookup_insert_eq; exact Hlt|].
  split; [intros j Hj; apply list_lookup_insert_ne; congruence|].
  split; [|split; [|reflexivity]].
  - eapply fs_find_of_list_find. apply list_find_Some.
    split; [apply list_lookup_insert_eq; exact Hlt|].
    split; [apply holds_name_iff; split; [discriminate | reflexivity]|].
    intros j y Hj Hji Hy.
    rewrite list_lookup_insert_ne in Hj by lia.
    apply holds_name_iff in Hy as [Ha Hn].
    apply (fs_find_none _ _ Hf j y Hj Ha Hn).
  - rewrite (in_use_insert _ _ e _ Hi). simpl used.
    assert (E : (used e =? 0) = true) by lia. rewrite E.
    change (1 =? 0) with false. cbv iota. lia.
Qed.

(** X12: a DEL that answers OK has cleared the first slot in use under the
    name and nothing else: that slot has an empty name, zero sizes and
    addresses and [used = 0]; every other slot and the heap are as before
    (the region is not given back); one slot fewer is in use; and when the
    names were unique, [fs_find] no longer finds the name. *)
Theorem delete_then_find (nm : option string) (st : kstate) :
  screen (cmd_del nm st) = screen st ++ [("OK" ++ nl)%string] ->
  exists (k : nat) (e : FsEntry),
    g_dir st !! k = Some e /\ active e /\ name e = arg nm /\
    fs_find (g_dir st) (arg nm) = Z.of_nat k /\
    g_dir (cmd_del nm st) !! k = Some (mkFsEntry EmptyString 0 0 0 0 0) /\
    (forall j : nat, j <> k -> g_dir (cmd_del nm st) !! j = g_dir st !! j) /\
    in_use (g_dir (cmd_del nm st)) = in_use (g_dir st) - 1 /\
    heap (cmd_del nm st) = heap st /\
    (unique_names (g_dir st) -> fs_find (g_dir (cmd_del nm st)) (arg nm) = -1).
Proof.
  intros Hok.
  destruct (cmd_del_done nm st Hok) as (k & e & _ & Hfind & ->).
  exists k, e.
  pose proof Hfind as Hl. apply list_find_Some in Hl as (Hk & Hp & _).
  apply holds_name_iff in Hp as [Ha Hn].
  assert (Hlt : (k < length (g_dir st))%nat) by (apply lookup_lt_Some in Hk; exact Hk).
  fields.
  repeat split; try assumption.
  - apply (fs_find_of_list_find _ _ _ _ Hfind).
  - apply list_lookup_insert_eq. exact Hlt.
  - intros j Hj. apply list_lookup_insert_ne. congruence.
  - rewrite (in_use_insert _ _ e _ Hk). simpl used.
    assert (E : (used e =? 0) = false) by (apply Z.eqb_neq; exact Ha).
    rewrite E. simpl. lia.
  - intros U. apply fs_find_minus_one. intros j y Hj Hy.
    apply holds_name_iff in Hy as [Hya Hyn].
    apply list_lookup_insert_Some in Hj as [(-> & <- & _) | (Hne & Hj)].
    + apply Hya. reflexivity.
    + apply Hne. apply (U k j e y Hk Hj Ha Hya). congruence.
Qed.

(** X13: a RENAME that answers OK has changed one name and nothing else:
    the first slot in use under the old name now has the new name, with its
    size, allocation, addresses and [used] flag as before; every other slot
    and the heap are as before; as many slots are in use; [fs_find] returns
    that slot for the new name, and when the names were unique it no longer
    finds the old one. *)
Theorem rename_then_find (oldn newn : option string) (st : kstate) :
  screen (cmd_rename oldn newn st) = screen st ++ [("OK" ++ nl)%string] ->
  exists (k : nat) (e : FsEntry),
    g_dir st !! k = Some e /\ active e /\ name e = arg oldn /\
    fs_find (g_dir st) (arg oldn) = Z.of_nat k /\
    g_dir (cmd_rename oldn newn st) !! k
    = Some (mkFsEntry (arg newn) (size e) (alloc_bytes e) (data e) (phys e) (used e)) /\
    (forall j : nat, j <> k -> g_dir (cmd_rename oldn newn st) !! j = g_dir st !! j) /\
    in_use (g_dir (cmd_rename oldn newn st)) = in_use (g_dir st) /\
    heap (cmd_rename oldn newn st) = heap st /\
    fs_find (g_dir (cmd_rename oldn newn st)) (arg newn) = Z.of_nat k /\
    arg oldn <> arg newn /\
    (unique_names (g_dir st) -> fs_find (g_dir (cmd_rename oldn newn st)) (arg oldn) = -1).
Proof.
  intros Hok.
  destruct (cmd_rename_ok oldn newn st Hok) as (k & e & _ & _ & _ & Hfind & Hnew & ->).
  exists k, e.
  pose proof Hfind as Hl. apply list_find_Some in Hl as (Hk & Hp & _).
  apply holds_name_iff in Hp as [Ha Hn].
  assert (Hlt : (k < length (g_dir st))%nat) by (apply lookup_lt_Some in Hk; exact Hk).
  assert (Hdiff : arg oldn <> arg newn).
  { intros Heq. apply (fs_find_none _ _ Hnew k e Hk Ha). congruence. }
  fields.
  repeat split; try assumption.
  - apply (fs_find_of_list_find _ _ _ _ Hfind).
  - apply list_lookup_insert_eq. exact Hlt.
  - intros j Hj. apply list_lookup_insert_ne. congruence.
  - rewrite (in_use_insert _ _ e _ Hk). simpl used. lia.
  - eapply fs_find_of_list_find. apply list_find_Some.
    split; [apply list_lookup_insert_eq; exact Hlt|].
    split; [apply holds_name_iff; split; [exact Ha | reflexivity]|].
    intros j y Hj Hjk Hy.
    rewrite list_lookup_insert_ne in Hj by lia.
    apply holds_name_iff in Hy as [Hya Hyn].
    apply (fs_find_none _ _ Hnew j y Hj Hya Hyn).
  - intros U. apply fs_find_minus_one. intros j y Hj Hy.
    apply holds_name_iff in Hy as [Hya Hyn].
    apply list_lookup_insert_Some in Hj as [(-> & <- & _) | (Hne & Hj)].
    + simpl in Hyn. congruence.
    + apply Hne. apply (U k j e y Hk Hj Ha Hya). congruence.
Qed.

(** X14: a file cannot be renamed to the name it has: RENAME with the same
    text as old and new name never answers OK and never changes the
    directory; when the name is present, shorter than 16 characters and in
    use, the answer is 'exists', and when it is not in use, 'not found'. *)
Theorem rename_to_same_name_fails (nm : option string) (st : kstate) :
  missing nm = false -> strlen (arg nm) < MAX_NAME ->
  g_dir (cmd_rename nm nm st) = g_dir st /\
  screen (cmd_rename nm nm st) <> screen st ++ [("OK" ++ nl)%string] /\
  (0 <= fs_find (g_dir st) (arg nm) ->
   cmd_rename nm nm st = kprint ("ERR: exists" ++ nl) st) /\
  (fs_find (g_dir st) (arg nm) < 0 ->
   cmd_rename nm nm st = kprint ("ERR: not found" ++ nl) st).
Proof.
  intros Hm Hl.
  assert (Hyes : 0 <= fs_find (g_dir st) (arg nm) ->
                 cmd_rename nm nm st = kprint ("ERR: exists" ++ nl) st).
  { intros Hf. unfold cmd_rename. rewrite Hm. simpl orb. cbv iota.
    assert (E1 : (strlen (arg nm) >=? MAX_NAME) = false) by lia. rewrite E1.
    assert (E2 : (fs_find (g_dir st) (arg nm) <? 0) = false) by lia. rewrite E2.
    assert (E3 : (fs_find (g_dir st) (arg nm) >=? 0) = true) by lia. rewrite E3.
    reflexivity. }
  assert (Hno : fs_find (g_dir st) (arg nm) < 0 ->
                cmd_rename nm nm st = kprint ("ERR: not found" ++ nl) st).
  { intros Hf. unfold cmd_rename. rewrite Hm. simpl orb. cbv iota.
    assert (E1 : (strlen (arg nm) >=? MAX_NAME) = false) by lia. rewrite E1.
    assert (E2 : (fs_find (g_dir st) (arg nm) <? 0) = true) by lia. rewrite E2.
    reflexivity. }
  split; [|split; [|split; assumption]].
  - destruct (Z_lt_le_dec (fs_find (g_dir st) (arg nm)) 0) as [H | H];
      [rewrite (Hno H) | rewrite (Hyes H)]; reflexivity.
  - destruct (Z_lt_le_dec (fs_find (g_dir st) (arg nm)) 0) as [H | H];
      [rewrite (Hno H) | rewrite (Hyes H)]; intros Hs; other_message Hs.
Qed.

(** *** LIST and boot *)

Lemma kprint_prints (m : string) (st : kstate) : kprint m st = prints [m] st.
Proof. reflexivity. Qed.

Lemma prints_prints (a b : list string) (st : kstate) :
  prints b (prints a st) = prints (a ++ b) st.
Proof. unfold prints. simpl. rewrite app_assoc. reflexivity. Qed.

Lemma prints_nil (st : kstate) : prints [] st = st.
Proof. destruct st. unfold prints. simpl. rewrite app_nil_r. reflexivity. Qed.

Lemma list_entry_prints (e : FsEntry) (st : kstate) :
  list_entry e st = prints (if used e =? 0 then [] else entry_chunks e) st.
Proof.
  unfold list_entry. destruct (used e =? 0).
  - symmetry. apply prints_nil.
  - rewrite !seq_apply, !kprint_prints, !prints_prints. reflexivity.
Qed.

Lemma fold_list_entry_prints (dir : list FsEntry) (st : kstate) :
  fold_left (fun s e => list_entry e s) dir st = prints (entries_chunks dir) st.
Proof.
  revert st. induction dir as [|e dir IH]; intros st; cbn [fold_left entries_chunks].
  - symmetry. apply prints_nil.
  - rewrite IH, list_entry_prints, prints_prints. reflexivity.
Qed.

Lemma cmd_list_prints (st : kstate) : cmd_list st = prints (listing (g_dir st)) st.
Proof.
  unfold cmd_list, listing. rewrite fold_list_entry_prints, kprint_prints, prints_prints.
  reflexivity.
Qed.

Lemma entries_chunks_filter (dir : list FsEntry) :
  entries_chunks dir
  = concat (map entry_chunks (List.filter (fun e => negb (used e =? 0)) dir)).
Proof.
  induction dir as [|e dir IH]; simpl; [reflexivity|].
  rewrite IH. destruct (used e =? 0); reflexivity.
Qed.

(** X15: LIST prints the header and then, in slot order, the eleven chunks
    of each record in use and nothing for a free slot; it changes nothing
    but the console, so a second LIST prints the same text again.  The line
    may be typed in any letter case. *)
Theorem list_shows_records_in_use (st : kstate) (line : string) :
  to_upper_inplace line = "LIST"%string ->
  cmd_list st = prints (listing (g_dir st)) st /\
  listing (g_dir st)
  = ("FILES:" ++ nl)%string
    :: concat (map entry_chunks (List.filter (fun e => negb (used e =? 0)) (g_dir st))) /\
  user_input line st = prints (listing (g_dir st) ++ ["> "%string]) st /\
  user_input line (user_input line st)
  = prints ((listing (g_dir st) ++ ["> "%string]) ++ (listing (g_dir st) ++ ["> "%string])) st.
Proof.
  intros Hl.
  assert (Hu : forall s, user_input line s = prints (listing (g_dir s) ++ ["> "%string]) s).
  { intros s.
    assert (E : user_input line s = kprint "> " (cmd_list s)).
    { unfold user_input. rewrite Hl. reflexivity. }
    rewrite E, cmd_list_prints, kprint_prints, prints_prints. reflexivity. }
  split; [apply cmd_list_prints|].
  split; [unfold listing; rewrite entries_chunks_filter; reflexivity|].
  split; [apply Hu|].
  rewrite (Hu (user_input line st)), (Hu st).
  change (g_dir (prints (listing (g_dir st) ++ ["> "%string]) st)) with (g_dir st).
  rewrite prints_prints. reflexivity.
Qed.

Lemma mark_free_in_use (raw : list FsEntry) : in_use (map mark_free raw) = 0.
Proof. induction raw as [|e raw IH]; simpl; [reflexivity | rewrite IH; reflexivity]. Qed.

Lemma mark_free_chunks (raw : list FsEntry) : entries_chunks (map mark_free raw) = [].
Proof. induction raw as [|e raw IH]; simpl; [reflexivity | exact IH]. Qed.

Lemma kernel_main_halted (raw : list FsEntry) (st : kstate) :
  halted (kernel_main raw st) = halted st.
Proof.
  unfold kernel_main. fields.
  match goal with |- halted (cmd_list ?s) = _ => destruct (cmd_list_frame s) as (_ & _ & _ & -> & _) end.
  fields. unfold fs_init. destruct (kmalloc _ _ _) as [[a p] h]. fields. reflexivity.
Qed.

(** X16: after boot every slot is free, whatever the memory of the table
    held: [fs_init] clears the [used] flags only, so the old names, sizes
    and addresses stay in the slots, but no name is found, nothing is
    listed, no slot counts as in use and the first CREATE will take slot 0. *)
Theorem boot_leaves_all_slots_free (raw : list FsEntry) (h : Heap) (scr : list string)
    (nm : string) :
  Z.of_nat (length raw) = MAX_FILES ->
  g_dir (kernel_main raw (power_on h scr)) = map mark_free raw /\
  (forall (i : nat) (e : FsEntry),
     g_dir (kernel_main raw (power_on h scr)) !! i = Some e ->
     used e = 0 /\ exists r, raw !! i = Some r /\ name e = name r /\ size e = size r) /\
  fs_find (g_dir (kernel_main raw (power_on h scr))) nm = -1 /\
  find_slot (g_dir (kernel_main raw (power_on h scr))) = 0 /\
  in_use (g_dir (kernel_main raw (power_on h scr))) = 0 /\
  listing (g_dir (kernel_main raw (power_on h scr))) = [("FILES:" ++ nl)%string] /\
  halted (kernel_main raw (power_on h scr)) = false.
Proof.
  intros Hlen. rewrite kernel_main_dir.
  split; [reflexivity|].
  split.
  { intros i e Hi. split; [eapply boot_all_free; eauto|].
    change (map mark_free raw) with (mark_free <$> raw) in Hi.
    rewrite list_lookup_fmap in Hi.
    destruct (raw !! i) as [r|]; [|discriminate]. injection Hi as <-.
    exists r. repeat split. }
  split.
  { apply fs_find_minus_one. intros j y Hj [Ha _]. apply Ha. eapply boot_all_free; eauto. }
  split.
  { destruct raw as [|r raw]; [discriminate|]. reflexivity. }
  split; [apply mark_free_in_use|].
  split; [unfold listing; rewrite mark_free_chunks; reflexivity|].
  rewrite kernel_main_halted. reflexivity.
Qed.

(** *** The dispatcher *)

Lemma cmd_create_frame (nm sz : option string) (st : kstate) :
  g_dir_phys (cmd_create nm sz st) = g_dir_phys st /\
  halted (cmd_create nm sz st) = halted st /\
  exists m, screen (cmd_create nm sz st) = screen st ++ [m].
Proof.
  unfold cmd_create. split_ifs; fields; repeat split; eexists; reflexivity.
Qed.

Lemma cmd_rename_frame (a b : option string) (st : kstate) :
  g_dir_phys (cmd_rename a b st) = g_dir_phys st /\
  halted (cmd_rename a b st) = halted st /\
  heap (cmd_rename a b st) = heap st /\
  exists m, screen (cmd_rename a b st) = screen st ++ [m].
Proof.
  unfold cmd_rename. split_ifs; fields; repeat split; eexists; reflexivity.
Qed.

Lemma cmd_del_frame (a : option string) (st : kstate) :
  g_dir_phys (cmd_del a st) = g_dir_phys st /\
  halted (cmd_del a st) = halted st /\
  heap (cmd_del a st) = heap st /\
  exists m, screen (cmd_del a st) = screen st ++ [m].
Proof.
  unfold cmd_del. split_ifs; fields; repeat split; eexists; reflexivity.
Qed.

Lemma dispatch_frame (c : string) (a1 a2 : option string) (st : kstate) :
  g_dir_phys (dispatch c a1 a2 st) = g_dir_phys st /\
  halted (dispatch c a1 a2 st) = halted st /\
  (c <> "CREATE"%string -> heap (dispatch c a1 a2 st) = heap st) /\
  exists resp, screen (dispatch c a1 a2 st) = screen st ++ resp.
Proof.
  unfold dispatch.
  destruct (strcmp c "LIST" =? 0).
  { destruct (cmd_list_frame st) as (_ & Hp & Hh & Hl & resp & Hs).
    split; [exact Hp|]. split; [exact Hl|]. split; [intros _; exact Hh|].
    eexists. exact Hs. }
  destruct (strcmp c "CREATE" =? 0) eqn:Ec.
  { destruct (cmd_create_frame a1 a2 st) as (Hp & Hl & m & Hs).
    split; [exact Hp|]. split; [exact Hl|]. split.
    - intros Hne. exfalso. apply Hne. apply strcmp_eqb. exact Ec.
    - eexists. exact Hs. }
  destruct (strcmp c "RENAME" =? 0).
  { destruct (cmd_rename_frame a1 a2 st) as (Hp & Hl & Hh & m & Hs).
    split; [exact Hp|]. split; [exact Hl|]. split; [intros _; exact Hh|].
    eexists. exact Hs. }
  destruct (strcmp c "DEL" =? 0).
  { destruct (cmd_del_frame a1 st) as (Hp & Hl & Hh & m & Hs).
    split; [exact Hp|]. split; [exact Hl|]. split; [intros _; exact Hh|].
    eexists. exact Hs. }
  fields. split; [reflexivity|]. split; [reflexivity|]. split; [reflexivity|].
  eexists. reflexivity.
Qed.

Lemma cmd_page_frame (st : kstate) :
  g_dir (cmd_page st) = g_dir st /\ g_dir_phys (cmd_page st) = g_dir_phys st /\
  halted (cmd_page st) = halted st /\
  heap (cmd_page st) = snd (kmalloc 1000 1 (heap st)) /\
  screen (cmd_page st)
  = screen st ++ ["Page: "; hex_to_ascii (fst (fst (kmalloc 1000 1 (heap st))));
                  ", physical address: "; hex_to_ascii (snd (fst (kmalloc 1000 1 (heap st))));
                  nl ++ "> "]%string.
Proof.
  unfold cmd_page. destruct (kmalloc 1000 1 (heap st)) as [[a p] h]. fields.
  repeat split. simpl. rewrite <- !app_assoc. reflexivity.
Qed.

(** X17: every line is answered on the console after what was there, and
    unless the line is END the answer ends with the prompt: its last chunk
    is the prompt, or for PAGE a newline and the prompt.  The answer to END
    is the farewell alone, without a prompt. *)
Theorem every_answer_ends_with_prompt (line : string) (st : kstate) :
  exists resp : list string,
    screen (user_input line st) = screen st ++ resp /\
    (to_upper_inplace line <> "END"%string -> ends_with_prompt resp) /\
    (to_upper_inplace line = "END"%string -> resp = [("Stopping the CPU. Bye!" ++ nl)%string]).
Proof.
  destruct (user_input_cases line st)
    as [[-> He] | [[-> Hp] | [[-> Ht] | (c & a1 & a2 & Ht & Hne & Hnp & ->)]]].
  - exists [("Stopping the CPU. Bye!" ++ nl)%string]. fields.
    split; [reflexivity|]. split; [contradiction | reflexivity].
  - destruct (cmd_page_frame st) as (_ & _ & _ & _ & Hs). eexists.
    split; [exact Hs|]. split.
    + intros _. eexists _, _. split; [|right; reflexivity].
      change (["Page: "%string; ?a; ", physical address: "%string; ?b; ?c])
        with (["Page: "%string; a; ", physical address: "%string; b] ++ [c]).
      reflexivity.
    + intros He. rewrite He in Hp. discriminate.
  - exists ["> "%string]. fields. split; [reflexivity|]. split.
    + intros _. exists [], "> "%string. split; [reflexivity | left; reflexivity].
    + intros He. rewrite He in Ht. vm_compute in Ht. discriminate.
  - destruct (dispatch_frame c a1 a2 st) as (_ & _ & _ & resp & Hs).
    exists (resp ++ ["> "%string]). fields. rewrite Hs, <- app_assoc.
    split; [reflexivity|]. split.
    + intros _. exists resp, "> "%string. split; [reflexivity | left; reflexivity].
    + intros He. contradiction.
Qed.

Lemma keyword_tokens (line c : string) (a1 a2 : option string) :
  tokens (to_upper_inplace line) = Some (c, a1, a2) -> keyword line = Some c.
Proof. unfold keyword. intros ->. reflexivity. Qed.

(** X18: what a line can touch: no line changes the recorded physical
    address of the table; no line but END halts the machine or starts it
    again; and the heap is left alone by every line except PAGE and the
    lines whose keyword is CREATE: LIST, RENAME, DEL, unknown and blank
    lines never allocate, and DEL in particular gives nothing back. *)
Theorem only_create_and_page_allocate (line : string) (st : kstate) :
  g_dir_phys (user_input line st) = g_dir_phys st /\
  (to_upper_inplace line <> "END"%string -> halted (user_input line st) = halted st) /\
  (to_upper_inplace line <> "PAGE"%string -> keyword line <> Some "CREATE"%string ->
   heap (user_input line st) = heap st) /\
  (to_upper_inplace line = "PAGE"%string ->
   g_dir (user_input line st) = g_dir st /\
   heap (user_input line st) = snd (kmalloc 1000 1 (heap st))).
Proof.
  destruct (user_input_cases line st)
    as [[-> He] | [[-> Hp] | [[-> Ht] | (c & a1 & a2 & Ht & Hne & Hnp & ->)]]].
  - fields. split; [reflexivity|]. split; [intros Hx; contradiction|].
    split; [intros _ _; reflexivity|].
    intros Hx. rewrite He in Hx. discriminate.
  - destruct (cmd_page_frame st) as (Hd & Hph & Hh & Hheap & _).
    split; [exact Hph|]. split; [intros _; exact Hh|].
    split; [intros Hx; contradiction|].
    intros _. split; assumption.
  - fields. split; [reflexivity|]. split; [intros _; reflexivity|].
    split; [intros _ _; reflexivity|].
    intros Hx. rewrite Hx in Ht. vm_compute in Ht. discriminate.
  - destruct (dispatch_frame c a1 a2 st) as (Hph & Hh & Hheap & _).
    fields. split; [exact Hph|]. split; [intros _; exact Hh|].
    split; [|intros Hx; contradiction].
    intros _ Hk. apply Hheap. intros ->. apply Hk. apply (keyword_tokens _ _ _ _ Ht).
Qed.

Lemma to_upper_spaces (n : nat) : to_upper_inplace (spaces n) = spaces n.
Proof. induction n as [|n IH]; simpl; [reflexivity | rewrite IH; reflexivity]. Qed.

Lemma tokens_none (s : string) : tokens s = None -> next_token (Some s) = None.
Proof.
  unfold tokens. destruct (next_token (Some s)) as [c0|]; [|reflexivity].
  destruct (cut_token c0) as [cm p]. destruct (next_token p) as [a|].
  - destruct (cut_token a) as [t q]. discriminate.
  - discriminate.
Qed.

Lemma tokens_blank (n : nat) : tokens (spaces n) = None.
Proof. unfold tokens. rewrite next_token_blank. reflexivity. Qed.

(** X19: an empty line and a line of spaces only are answered with the
    prompt alone and change nothing else; and a line is answered that way
    only if it has no command keyword. *)
Theorem blank_line_prints_prompt_only (n : nat) (line : string) (st : kstate) :
  user_input (spaces n) st = kprint "> " st /\
  user_input EmptyString st = kprint "> " st /\
  (keyword line = None -> user_input line st = kprint "> " st) /\
  (keyword line = None -> exists k : nat, to_upper_inplace line = spaces k).
Proof.
  assert (Hblank : forall l, keyword l = None -> user_input l st = kprint "> " st).
  { intros l Hk. unfold keyword in Hk.
    destruct (user_input_cases l st)
      as [[_ He] | [[_ Hp] | [[-> _] | (c & a1 & a2 & Ht & _ & _ & _)]]].
    - rewrite He in Hk. vm_compute in Hk. discriminate.
    - rewrite Hp in Hk. vm_compute in Hk. discriminate.
    - reflexivity.
    - rewrite Ht in Hk. discriminate. }
  assert (Hkey : forall k, keyword (spaces k) = None).
  { intros k. unfold keyword. rewrite to_upper_spaces, tokens_blank. reflexivity. }
  split; [apply Hblank, Hkey|].
  split; [apply (Hblank EmptyString), (Hkey O)|].
  split; [apply Hblank|].
  intros Hk.
  assert (Hn : next_token (Some (to_upper_inplace line)) = None).
  { apply tokens_none. unfold keyword in Hk.
    destruct (tokens (to_upper_inplace line)) as [[[c a1] a2]|]; [discriminate | reflexivity]. }
  destruct (skip_spaces_shape (to_upper_inplace line)) as (k & Hp & _).
  exists k. unfold next_token in Hn.
  destruct (skip_spaces (to_upper_inplace line)) as [|x r]; [|discriminate].
  rewrite Hp. clear. induction k as [|k IH]; simpl; [reflexivity | f_equal; exact IH].
Qed.

(** X20: the dispatcher matches the keyword exactly: a line whose keyword
    is LIST is a LIST whatever follows the keyword, and a line whose keyword
    is none of LIST, CREATE, RENAME and DEL (and which is not the line END
    or PAGE) is answered 'Unknown command' and the prompt and changes
    nothing else. *)
Theorem keyword_is_matched_exactly (line c : string) (st : kstate) :
  keyword line = Some c ->
  to_upper_inplace line <> "END"%string -> to_upper_inplace line <> "PAGE"%string ->
  (c = "LIST"%string -> user_input line st = kprint "> " (cmd_list st)) /\
  (c <> "LIST"%string -> c <> "CREATE"%string -> c <> "RENAME"%string -> c <> "DEL"%string ->
   user_input line st = kprint "> " (kprint ("Unknown command" ++ nl) st)).
Proof.
  intros Hk Hne Hnp. unfold keyword in Hk.
  destruct (user_input_cases line st)
    as [[_ He] | [[_ Hp] | [[_ Ht] | (c' & a1 & a2 & Ht & _ & _ & ->)]]];
    try contradiction.
  - rewrite Ht in Hk. discriminate.
  - rewrite Ht in Hk. injection Hk as ->. split.
    + intros ->. reflexivity.
    + intros H1 H2 H3 H4. unfold dispatch.
      rewrite (strcmp_neqb _ _ H1), (strcmp_neqb _ _ H2), (strcmp_neqb _ _ H3),
        (strcmp_neqb _ _ H4). reflexivity.
Qed.

(** *** Records in reachable states *)

Lemma missing_arg (q : option string) : missing q = false -> arg q <> EmptyString.
Proof. intros H. destruct (missing_false q H) as (x & -> & Hx). exact Hx. Qed.

Lemma cmd_create_slot_ok (nm sz : option string) (st : kstate) :
  (forall j e, g_dir st !! j = Some e -> slot_ok e) ->
  forall j e, g_dir (cmd_create nm sz st) !! j = Some e -> slot_ok e.
Proof.
  intros Hall j e Hj.
  destruct (cmd_create_ok_or_same nm sz st) as [Hsame | Hok].
  { rewrite Hsame in Hj. eapply Hall; eauto. }
  destruct (cmd_create_ok nm sz st Hok)
    as (i & d & p & h & Hm & _ & Hl & _ & Hp & _ & _ & Hd & Heq).
  rewrite Heq in Hj. unfold created in Hj. revert Hj. fields. intros Hj.
  apply list_lookup_insert_Some in Hj as [(-> & <- & _) | (_ & Hj)]; [|eapply Hall; eauto].
  right. unfold wellformed_record. simpl.
  pose proof (parse_uint_range (arg sz)).
  repeat split; try assumption; try lia. apply missing_arg. exact Hm.
Qed.

Lemma cmd_rename_slot_ok (a b : option string) (st : kstate) :
  (forall j e, g_dir st !! j = Some e -> slot_ok e) ->
  forall j e, g_dir (cmd_rename a b st) !! j = Some e -> slot_ok e.
Proof.
  intros Hall j e Hj.
  destruct (cmd_rename_ok_or_same a b st) as [Hsame | Hok].
  { rewrite Hsame in Hj. eapply Hall; eauto. }
  destruct (cmd_rename_ok a b st Hok) as (k & x & _ & Hm & Hl & Hfind & _ & Heq).
  rewrite Heq in Hj. revert Hj. fields. intros Hj.
  apply list_find_Some in Hfind as (Hk & (Ha & _) & _).
  apply list_lookup_insert_Some in Hj as [(-> & <- & _) | (_ & Hj)]; [|eapply Hall; eauto].
  destruct (Hall j x Hk) as [Hfree | (Hu & _ & _ & Hs & Hal & Hd)]; [contradiction|].
  right. unfold wellformed_record. simpl.
  repeat split; try assumption; try lia. apply missing_arg. exact Hm.
Qed.

Lemma cmd_del_slot_ok (a : option string) (st : kstate) :
  (forall j e, g_dir st !! j = Some e -> slot_ok e) ->
  forall j e, g_dir (cmd_del a st) !! j = Some e -> slot_ok e.
Proof.
  intros Hall j e Hj.
  destruct (cmd_del_ok_or_same a st) as [Hsame | Hok].
  { rewrite Hsame in Hj. eapply Hall; eauto. }
  destruct (cmd_del_done a st Hok) as (k & x & _ & _ & Heq).
  rewrite Heq in Hj. revert Hj. fields. intros Hj.
  apply list_lookup_insert_Some in Hj as [(-> & <- & _) | (_ & Hj)]; [|eapply Hall; eauto].
  left. reflexivity.
Qed.

Lemma user_input_slot_ok (line : string) (st : kstate) :
  (forall j e, g_dir st !! j = Some e -> slot_ok e) ->
  forall j e, g_dir (user_input line st) !! j = Some e -> slot_ok e.
Proof.
  intros Hall.
  destruct (user_input_cases line st)
    as [[-> _] | [[-> _] | [[-> _] | (c & a1 & a2 & _ & _ & _ & ->)]]].
  - fields. exact Hall.
  - rewrite cmd_page_dir. exact Hall.
  - fields. exact Hall.
  - fields. unfold dispatch. split_ifs.
    + destruct (cmd_list_frame st) as (-> & _). exact Hall.
    + apply cmd_create_slot_ok. exact Hall.
    + apply cmd_rename_slot_ok. exact Hall.
    + apply cmd_del_slot_ok. exact Hall.
    + fields. exact Hall.
Qed.

Lemma reachable_slot_ok (st : kstate) :
  reachable st -> forall j e, g_dir st !! j = Some e -> slot_ok e.
Proof.
  intros R. induction R as [raw h scr Hlen | line st R IH].
  - rewrite kernel_main_dir. intros j e Hj. left. eapply boot_all_free; eauto.
  - apply user_input_slot_ok. exact IH.
Qed.

Lemma reachable_unique (st : kstate) : reachable st -> unique_names (g_dir st).
Proof.
  apply (reachable_invariant unique_names).
  - intros raw _ i j e1 e2 Hi _ A1 _ _. exfalso. apply A1. eapply boot_all_free; eauto.
  - apply dir_step_unique.
Qed.

(** X21: in every reachable state each of the 16 slots is either free or
    holds a well-formed record: [used] is 1, the name is not empty and has
    at most 15 characters (it fits the 16-byte field with its terminator),
    the size is between 1 and 2^32 - 1, the allocation is the page rounding
    of the size, and the data address is not NULL.  So [used] is never
    anything but 0 or 1 and at most 16 slots are in use. *)
Theorem reachable_slots_wellformed (st : kstate) (i : nat) (e : FsEntry) :
  reachable st -> g_dir st !! i = Some e ->
  (used e = 0 \/ wellformed_record e) /\
  (used e = 0 \/ used e = 1) /\
  (active e -> name e <> EmptyString /\ strlen (name e) <= 15 /\ data e <> 0) /\
  0 <= in_use (g_dir st) <= 16.
Proof.
  intros R Hi.
  pose proof (reachable_slot_ok st R i e Hi) as Hok.
  split; [exact Hok|]. split; [|split].
  - destruct Hok as [H | (H & _)]; [left | right]; exact H.
  - intros Ha. destruct Hok as [H | (_ & Hn & Hl & _ & _ & Hd)]; [contradiction|].
    unfold MAX_NAME in Hl. repeat split; try assumption. lia.
  - pose proof (in_use_bounds (g_dir st)) as Hb.
    pose proof (reachable_length st R) as Hlen. unfold MAX_FILES in Hlen. lia.
Qed.

(** X22: a file that has just been deleted can be created again: from a
    reachable state, after a DEL that answered OK, a CREATE of the same
    name with a size text that parses to a positive size passes every check
    and, when [kmalloc] returns an address, fills the free slot of lowest
    index, which is the slot just freed or a free slot before it. *)
Theorem delete_then_create_again (st0 st : kstate) (nm sz : string) (d p : Z) (h : Heap) :
  reachable st0 ->
  screen (cmd_del (Some nm) st0) = screen st0 ++ [("OK" ++ nl)%string] ->
  g_dir st = g_dir (cmd_del (Some nm) st0) ->
  sz <> EmptyString -> parse_uint sz <> 0 ->
  kmalloc (round_up_page (parse_uint sz)) 1 (heap st) = (d, p, h) -> d <> 0 ->
  exists (i k : nat),
    fs_find (g_dir st0) nm = Z.of_nat k /\ (i <= k)%nat /\ lowest_free (g_dir st) i /\
    fs_find (g_dir st) nm = -1 /\
    cmd_create (Some nm) (Some sz) st = created i nm (parse_uint sz) d p h st.
Proof.
  intros R Hok Hdir Hsz Hp Hk Hd.
  destruct (cmd_del_done (Some nm) st0 Hok) as (k & e & _ & Hfind & Heq).
  simpl arg in Hfind.
  pose proof Hfind as Hl. apply list_find_Some in Hl as (Hke & Hhold & _).
  apply holds_name_iff in Hhold as [Ha Hn].
  assert (Hdir' : g_dir st = <[k := mkFsEntry EmptyString 0 0 0 0 0]> (g_dir st0)).
  { rewrite Hdir, Heq. fields. reflexivity. }
  destruct (reachable_slot_ok st0 R k e Hke) as [Hfree | (_ & Hne & Hlen & _)]; [contradiction|].
  rewrite Hn in Hne, Hlen.
  assert (Hgone : fs_find (g_dir st) nm = -1).
  { apply fs_find_minus_one. intros j y Hj Hy.
    apply holds_name_iff in Hy as [Hya Hyn]. rewrite Hdir' in Hj.
    apply list_lookup_insert_Some in Hj as [(-> & <- & _) | (Hne' & Hj)].
    - apply Hya. reflexivity.
    - apply Hne'. apply (reachable_unique st0 R k j e y Hke Hj Ha Hya). congruence. }
  assert (Hslot : g_dir st !! k = Some (mkFsEntry EmptyString 0 0 0 0 0)).
  { rewrite Hdir'. apply list_lookup_insert_eq. apply lookup_lt_Some in Hke. exact Hke. }
  assert (Hsome : is_Some (list_find is_free (g_dir st))).
  { eapply list_find_elem_of; [eapply list_elem_of_lookup_2; exact Hslot | reflexivity]. }
  destruct Hsome as [[i x] Hfree].
  assert (Hfs : find_slot (g_dir st) = Z.of_nat i).
  { unfold find_slot. rewrite Hfree. reflexivity. }
  pose proof (find_slot_is_lowest (g_dir st)) as Hlow.
  rewrite Hfs, Nat2Z.id in Hlow. specialize (Hlow ltac:(lia)).
  exists i, k.
  split; [apply (fs_find_of_list_find _ _ _ _ Hfind)|].
  split.
  { destruct (le_lt_dec i k) as [Hle | Hgt]; [exact Hle|].
    exfalso. destruct Hlow as [_ Hbefore].
    apply (Hbefore k _ Hgt Hslot). reflexivity. }
  split; [exact Hlow|]. split; [exact Hgone|].
  rewrite (cmd_create_valid st nm sz Hne Hsz Hlen ltac:(lia) Hp), Hfs, Hk.
  assert (E : (Z.of_nat i <? 0) = false) by (apply Z.ltb_ge; lia). rewrite E.
  assert (E' : (d =? 0) = false) by (apply Z.eqb_neq; exact Hd). rewrite E'.
  rewrite Nat2Z.id. reflexivity.
Qed.

End Further.

(** ** Instances of the further properties on the sample machine *)

(** The first character of 'del a1'. *)
Lemma to_upper_inplace_pointwise_witness :
  String.length (to_upper_inplace "del a1") = String.length "del a1" /\
  String.get 0 (to_upper_inplace "del a1") = Some (upper_char "d").
Proof.
  destruct (to_upper_inplace_pointwise "del a1" 0 "d") as (H1 & H2 & _).
  - reflexivity.
  - split; [exact H1 | exact H2].
Defined.

(** '  CREATE  F1 10 20', '  CREATE  F1' and '  CREATE '. *)
Lemma tokens_of_spaced_line_witness :
  tokens "  CREATE  F1 10 20" = Some ("CREATE", Some "F1", Some "10 20")%string /\
  tokens "  CREATE  F1" = Some ("CREATE", Some "F1", None)%string /\
  tokens "  CREATE " = Some ("CREATE", None, None)%string.
Proof.
  destruct (tokens_of_spaced_line "CREATE" "F1" "10 20" 2 1 0) as (H1 & _ & _);
    [discriminate | reflexivity | discriminate | reflexivity | discriminate | reflexivity |].
  destruct (tokens_of_spaced_line "CREATE" "F1" "10 20" 2 1 0) as (_ & H2 & _);
    [discriminate | reflexivity | discriminate | reflexivity | discriminate | reflexivity |].
  destruct (tokens_of_spaced_line "CREATE" "F1" "10 20" 2 1 1) as (_ & _ & H3);
    [discriminate | reflexivity | discriminate | reflexivity | discriminate | reflexivity |].
  split; [exact H1|]. split; [exact H2 | exact H3].
Defined.

(** A source of 19 characters copied into a field of 16. *)
Lemma copy_bounded_fits_witness :
  strlen (copy_bounded "OLD" (Some "ABCDEFGHIJKLMNOPQRS"%string) 16) = 15 /\
  begins_with (copy_bounded "OLD" (Some "ABCDEFGHIJKLMNOPQRS"%string) 16) "ABCDEFGHIJKLMNOPQRS".
Proof.
  destruct (copy_bounded_fits "OLD" "ABCDEFGHIJKLMNOPQRS" 16) as (H1 & _ & H3 & _).
  - reflexivity.
  - split; [exact H1 | exact H3].
Defined.

(** The value 4096, also after a space and before ' B'. *)
Lemma parse_uint_of_dec_to_ascii_witness :
  parse_uint (dec_to_ascii 4096) = 4096 /\
  parse_uint (spaces 1 ++ dec_to_ascii 4096 ++ " B") = 4096.
Proof.
  apply (parse_uint_of_dec_to_ascii 4096 1 " B").
  - split; [discriminate | reflexivity].
  - reflexivity.
Defined.

(** The largest 32-bit value. *)
Lemma dec_to_ascii_is_decimal_witness :
  1 <= strlen (dec_to_ascii 4294967295) <= 10 /\
  dec_value 0 (dec_to_ascii 4294967295) = 4294967295.
Proof.
  destruct (dec_to_ascii_is_decimal 4294967295) as (_ & H2 & _ & H4 & _).
  - split; [discriminate | reflexivity].
  - split; [exact H2 | exact H4].
Defined.

(** The digits of 2^32 + 1 followed by letters. *)
Lemma parse_uint_reads_leading_digits_witness :
  parse_uint (spaces 1 ++ "4294967297" ++ "ABC") = dec_value 0 "4294967297" mod 2 ^ 32.
Proof.
  destruct (parse_uint_reads_leading_digits 1 "4294967297" "ABC") as (H1 & _).
  - reflexivity.
  - discriminate.
  - reflexivity.
  - exact H1.
Defined.

(** The requests 4097 and 8192. *)
Lemma round_up_page_is_ceiling_witness :
  smallest_page_multiple 4097 (round_up_page 4097) /\
  round_up_page 4097 <= round_up_page 8192.
Proof.
  destruct (round_up_page_is_ceiling 4097 8192) as (H1 & _ & _ & _ & _ & H6).
  - split; [discriminate | discriminate].
  - discriminate.
  - split; [exact H1 | exact H6].
Defined.

(** A table in which the name B is left in a free slot before the slot that
    uses it. *)
Lemma fs_find_first_active_witness :
  fs_find [mkFsEntry "A" 1 4096 1 1 1; mkFsEntry "B" 2 4096 2 2 0; mkFsEntry "B" 3 4096 3 3 1]
          "B" = 2.
Proof.
  destruct (fs_find_first_active
              [mkFsEntry "A" 1 4096 1 1 1; mkFsEntry "B" 2 4096 2 2 0; mkFsEntry "B" 3 4096 3 3 1]
              "B" 2 (mkFsEntry "B" 3 4096 3 3 1)) as (H1 & _).
  - reflexivity.
  - apply H1. split; [discriminate|]. split; [reflexivity|].
    intros j y Hlt Hj [Ha Hn].
    destruct j as [|[|j]]; [| | lia]; vm_compute in Hj; injection Hj as <-.
    + discriminate Hn.
    + apply Ha. reflexivity.
Defined.

(** 'CREATE A 10' as the first command. *)
Lemma create_then_find_witness :
  exists (i : nat) (d p : Z) (h : @Heap sample),
    lowest_free (g_dir booted) i /\
    @kmalloc sample (round_up_page (parse_uint "10")) 1 (heap booted) = (d, p, h) /\
    g_dir (@cmd_create sample (Some "A"%string) (Some "10"%string) booted) !! i
    = Some (mkFsEntry "A" (parse_uint "10") (round_up_page (parse_uint "10")) d p 1) /\
    fs_find (g_dir (@cmd_create sample (Some "A"%string) (Some "10"%string) booted)) "A"
    = Z.of_nat i.
Proof.
  destruct (@create_then_find sample (Some "A"%string) (Some "10"%string) booted)
    as (i & d & p & h & H1 & H2 & H3 & _ & H5 & _).
  - vm_compute. reflexivity.
  - exists i, d, p, h. repeat split; try assumption; apply H1.
Defined.

(** 'DEL A' after 'CREATE A 10'. *)
Lemma delete_then_find_witness :
  exists (k : nat),
    fs_find (g_dir (after ["CREATE A 10"%string])) "A" = Z.of_nat k /\
    g_dir (@cmd_del sample (Some "A"%string) (after ["CREATE A 10"%string])) !! k
    = Some (mkFsEntry EmptyString 0 0 0 0 0) /\
    fs_find (g_dir (@cmd_del sample (Some "A"%string) (after ["CREATE A 10"%string]))) "A" = -1.
Proof.
  destruct (@delete_then_find sample (Some "A"%string) (after ["CREATE A 10"%string]))
    as (k & e & _ & _ & _ & H4 & H5 & _ & _ & _ & H9).
  - vm_compute. reflexivity.
  - exists k. split; [exact H4|]. split; [exact H5|].
    apply H9. apply (reachable_unique (after ["CREATE A 10"%string])). apply after_reachable.
Defined.

(** 'RENAME A B' after 'CREATE A 10'. *)
Lemma rename_then_find_witness :
  exists (k : nat),
    fs_find (g_dir (after ["CREATE A 10"%string])) "A" = Z.of_nat k /\
    fs_find (g_dir (@cmd_rename sample (Some "A"%string) (Some "B"%string)
                      (after ["CREATE A 10"%string]))) "B" = Z.of_nat k /\
    heap (@cmd_rename sample (Some "A"%string) (Some "B"%string) (after ["CREATE A 10"%string]))
    = heap (after ["CREATE A 10"%string]).
Proof.
  destruct (@rename_then_find sample (Some "A"%string) (Some "B"%string)
              (after ["CREATE A 10"%string]))
    as (k & e & _ & _ & _ & H4 & _ & _ & _ & H8 & H9 & _).
  - vm_compute. reflexivity.
  - exists k. split; [exact H4|]. split; [exact H9 | exact H8].
Defined.

(** 'RENAME A A' after 'CREATE A 10'. *)
Lemma rename_to_same_name_fails_witness :
  @cmd_rename sample (Some "A"%string) (Some "A"%string) (after ["CREATE A 10"%string])
  = kprint ("ERR: exists" ++ nl) (after ["CREATE A 10"%string]).
Proof.
  destruct (@rename_to_same_name_fails sample (Some "A"%string) (after ["CREATE A 10"%string]))
    as (_ & _ & H3 & _).
  - reflexivity.
  - reflexivity.
  - apply H3. vm_compute. discriminate.
Defined.

(** 'list' after 'CREATE A 10'. *)
Lemma list_shows_records_in_use_witness :
  @user_input sample "list" (after ["CREATE A 10"%string])
  = @prints sample (@listing sample (g_dir (after ["CREATE A 10"%string])) ++ ["> "%string])
            (after ["CREATE A 10"%string]).
Proof.
  destruct (@list_shows_records_in_use sample (after ["CREATE A 10"%string]) "list")
    as (_ & _ & H3 & _).
  - reflexivity.
  - exact H3.
Defined.

(** The sample machine at boot, whose table memory held the name 'junk' in
    every slot. *)
Lemma boot_leaves_all_slots_free_witness :
  fs_find (g_dir booted) "junk" = -1 /\ find_slot (g_dir booted) = 0 /\
  (name <$> g_dir booted !! 0%nat) = Some "junk"%string.
Proof.
  destruct (@boot_leaves_all_slots_free sample (replicate 16 junk) 65536 [] "junk")
    as (_ & _ & H3 & H4 & _).
  - reflexivity.
  - split; [exact H3|]. split; [exact H4|]. vm_compute. reflexivity.
Defined.

(** 'del x' on the sample machine. *)
Lemma every_answer_ends_with_prompt_witness :
  exists resp : list string,
    screen (@user_input sample "del x" booted) = screen booted ++ resp /\
    ends_with_prompt resp.
Proof.
  destruct (@every_answer_ends_with_prompt sample "del x" booted) as (resp & H1 & H2 & _).
  exists resp. split; [exact H1|]. apply H2. vm_compute. discriminate.
Defined.

(** 'del x' on the sample machine. *)
Lemma only_create_and_page_allocate_witness :
  heap (@user_input sample "del x" booted) = heap booted /\
  halted (@user_input sample "del x" booted) = halted booted.
Proof.
  destruct (@only_create_and_page_allocate sample "del x" booted) as (_ & H2 & H3 & _).
  split.
  - apply H3; vm_compute; discriminate.
  - apply H2. vm_compute. discriminate.
Defined.

(** A line of three spaces. *)
Lemma blank_line_prints_prompt_only_witness :
  @user_input sample "   " booted = kprint "> " booted.
Proof.
  destruct (@blank_line_prints_prompt_only sample 3 "   " booted) as (_ & _ & H3 & _).
  apply H3. reflexivity.
Defined.

(** 'help me' and 'list all' on the sample machine. *)
Lemma keyword_is_matched_exactly_witness :
  @user_input sample "help me" booted = kprint "> " (kprint ("Unknown command" ++ nl) booted) /\
  @user_input sample "list all" booted = kprint "> " (cmd_list booted).
Proof.
  split.
  - destruct (@keyword_is_matched_exactly sample "help me" "HELP" booted) as (_ & H2);
      [reflexivity | discriminate | discriminate |].
    apply H2; discriminate.
  - destruct (@keyword_is_matched_exactly sample "list all" "LIST" booted) as (H1 & _);
      [reflexivity | discriminate | discriminate |].
    apply H1. reflexivity.
Defined.

(** Slot 0 after 'create foo 10'. *)
Lemma reachable_slots_wellformed_witness :
  wellformed_record (mkFsEntry "FOO" 10 4096 73728 73728 1) /\
  0 <= in_use (g_dir (after ["create foo 10"%string])) <= 16.
Proof.
  destruct (@reachable_slots_wellformed sample (after ["create foo 10"%string]) 0
              (mkFsEntry "FOO" 10 4096 73728 73728 1)) as (H1 & _ & _ & H4).
  - apply after_reachable.
  - vm_compute. reflexivity.
  - split; [|exact H4]. destruct H1 as [H | H]; [discriminate H | exact H].
Defined.

(** 'CREATE A 5' after 'CREATE A 10' and 'DEL A'. *)
Lemma delete_then_create_again_witness :
  exists (i k : nat),
    (i <= k)%nat /\
    @cmd_create sample (Some "A"%string) (Some "5"%string) (after ["CREATE A 10"; "DEL A"]%string)
    = @created sample i "A" 5 81920 81920 86016 (after ["CREATE A 10"; "DEL A"]%string).
Proof.
  destruct (@delete_then_create_again sample (after ["CREATE A 10"%string])
              (after ["CREATE A 10"; "DEL A"]%string) "A" "5" 81920 81920 86016)
    as (i & k & _ & H2 & _ & _ & H5).
  - apply after_reachable.
  - vm_compute. reflexivity.
  - vm_compute. reflexivity.
  - discriminate.
  - vm_compute. discriminate.
  - vm_compute. reflexivity.
  - discriminate.
  - exists i, k. split; [exact H2 | exact H5].
Defined.
